(** * Domain Suggester backend (app.py): a shallow embedding and its properties

    The development follows [src/app.py] top to bottom:

    - Python values as the handlers see them (decoded JSON), with the few
      [str], [dict] and built-in operations the code applies to them;
    - a state-and-exception monad for the effectful code: the registration
      table, the outside world (WHOIS endpoint, SMTP relay, clock) and the
      trace of the calls made into it;
    - [whoisxml_check], [generate_suggestions], [send_email], the two
      handlers [check_domain] and [notify], and [process_notifications];
    - the properties of these functions, then runs at concrete inputs.

    What the model takes from outside the file:

    - strings are Rocq [string]s whose characters stand for the code points
      U+0000 to U+00FF; [str.lower], [str.upper], [str.strip] are given on
      that range as CPython defines them there. What is proved of a string
      is proved of the texts of that range: beyond it [str.upper] sends
      further characters to letters of the range (U+0131 to I, U+017F to
      S), and [str.lower] of U+03A3 depends on its neighbours;
    - a handler is a function of the decoded body [request.json]; a handler
      that raises is what Flask answers with status 500. The route of
      /notify is also given from its first line, where [request.json] may
      itself raise: what it raises is left open;
    - the table is the list of its rows in insertion order, a commit
      succeeds, and the calls of the handlers and of the background job
      run one at a time;
    - what [requests.get], the SMTP session, [time.time] and [int] on a
      string do is left open: they are parameters. *)

From Stdlib Require Import List String Ascii NArith ZArith QArith Lia Bool.
Import ListNotations.
Local Open Scope string_scope.
Local Open Scope Z_scope.

Set Implicit Arguments.

(* ===================================================================== *)
(** ** Python strings *)
(* ===================================================================== *)

Module PyStr.

Definition code (c : ascii) : N := N_of_ascii c.

Definition between (lo hi n : N) : bool := ((lo <=? n) && (n <=? hi))%N.

(** [str.lower] on one character: A-Z, and the Latin-1 capitals U+00C0 to
    U+00DE except the multiplication sign U+00D7. *)
Definition lower_char (c : ascii) : ascii :=
  let n := code c in
  if between 65 90 n || (between 192 222 n && negb (n =? 215)%N)
  then ascii_of_N (n + 32) else c.

(** [str.upper] on one character, as a sequence of code points: three
    characters of the range have an upper case outside of it or of
    length two. *)
Definition upper_char (c : ascii) : list N :=
  let n := code c in
  if between 97 122 n || (between 224 254 n && negb (n =? 247)%N)
  then [(n - 32)%N]
  else if (n =? 223)%N then [83%N; 83%N]
  else if (n =? 255)%N then [376%N]
  else if (n =? 181)%N then [924%N]
  else [n].

(** [str.isspace] on one character. *)
Definition is_space (c : ascii) : bool :=
  let n := code c in
  between 9 13 n || between 28 32 n || (n =? 133)%N || (n =? 160)%N.

Fixpoint lower (s : string) : string :=
  match s with
  | EmptyString => EmptyString
  | String c s' => String (lower_char c) (lower s')
  end.

Fixpoint upper (s : string) : list N :=
  match s with
  | EmptyString => []
  | String c s' => upper_char c ++ upper s'
  end.

Fixpoint codes (s : string) : list N :=
  match s with
  | EmptyString => []
  | String c s' => code c :: codes s'
  end.

Fixpoint lstrip (s : string) : string :=
  match s with
  | EmptyString => EmptyString
  | String c s' => if is_space c then lstrip s' else s
  end.

Fixpoint rstrip (s : string) : string :=
  match s with
  | EmptyString => EmptyString
  | String c s' =>
      match rstrip s' with
      | EmptyString => if is_space c then EmptyString else String c EmptyString
      | r => String c r
      end
  end.

Definition strip (s : string) : string := rstrip (lstrip s).

(** [sub in s] for two strings: [sub] occurs in [s] as a substring. *)
Fixpoint contains (sub s : string) : bool :=
  String.prefix sub s ||
  match s with
  | EmptyString => false
  | String _ s' => contains sub s'
  end.

(** [s.split(sep)] for a separator of one character. *)
Fixpoint split (sep : ascii) (s : string) : list string :=
  match s with
  | EmptyString => [EmptyString]
  | String c s' =>
      if Ascii.eqb c sep then EmptyString :: split sep s'
      else match split sep s' with
           | [] => [String c EmptyString]
           | h :: t => String c h :: t
           end
  end.

Definition dot : ascii := "."%char.

Definition has_dot (s : string) : bool := contains "." s.

End PyStr.

(* ===================================================================== *)
(** ** Python values and exceptions *)
(* ===================================================================== *)

(** A [float], by its exact value when it is finite. *)
Inductive pyfloat : Type :=
| FNan
| FInf (negative : bool)
| FFinite (q : Q).

(** What [json] decoding yields, which is also what the handlers build
    their defaults from. A [dict] keeps its items in insertion order. *)
#[warnings="-register-all"]
Inductive pyval : Type :=
| PNone
| PBool (b : bool)
| PInt (n : Z)
| PFloat (f : pyfloat)
| PStr (s : string)
| PList (l : list pyval)
| PDict (items : list (string * pyval)).

(** Exceptions. [External] stands for whatever [requests], the JSON decoder
    or [smtplib] raise; the others are raised by the interpreter on the
    operations below. [RuntimeError prefix cause] is
    [RuntimeError(f"{prefix}{cause}")] raised while handling [cause]. *)
Inductive pyexn : Type :=
| External (what : string)
| AttributeError (attr : string)
| TypeError (what : string)
| KeyError (key : string)
| ValueError
| OverflowError
| RuntimeError (prefix : string) (cause : pyexn).

Inductive outcome (A : Type) : Type :=
| Ret (a : A)
| Raise (e : pyexn).
Arguments Raise {A} e.

Module Py.

Fixpoint dict_lookup (k : string) (items : list (string * pyval)) : option pyval :=
  match items with
  | [] => None
  | (k', v) :: rest => if String.eqb k k' then Some v else dict_lookup k rest
  end.

Definition is_str (v : pyval) (s : string) : bool :=
  match v with
  | PStr s' => String.eqb s s'
  | _ => false
  end.

(** [k in obj] for a [str] key. *)
Definition contains (k : string) (obj : pyval) : outcome bool :=
  match obj with
  | PDict items => Ret (match dict_lookup k items with Some _ => true | None => false end)
  | PList l => Ret (existsb (fun v => is_str v k) l)
  | PStr s => Ret (PyStr.contains k s)
  | _ => Raise (TypeError "not iterable")
  end.

(** [obj[k]] for a [str] key. *)
Definition getitem (obj : pyval) (k : string) : outcome pyval :=
  match obj with
  | PDict items =>
      match dict_lookup k items with
      | Some v => Ret v
      | None => Raise (KeyError k)
      end
  | PList _ | PStr _ => Raise (TypeError "indices must be integers")
  | _ => Raise (TypeError "not subscriptable")
  end.

(** [obj.get(k, default)]: only a [dict] has the method. *)
Definition get (obj : pyval) (k : string) (default : pyval) : outcome pyval :=
  match obj with
  | PDict items =>
      Ret (match dict_lookup k items with Some v => v | None => default end)
  | _ => Raise (AttributeError "get")
  end.

(** Truth value of an object in an [if]. *)
Definition truthy (v : pyval) : bool :=
  match v with
  | PNone => false
  | PBool b => b
  | PInt n => negb (n =? 0)
  | PFloat (FFinite q) => negb (Qnum q =? 0)
  | PFloat _ => true
  | PStr s => negb (String.eqb s EmptyString)
  | PList l => match l with [] => false | _ => true end
  | PDict d => match d with [] => false | _ => true end
  end.

(** [obj.upper()], [obj.strip()], [obj.lower()]: only a [str] has them. *)
Definition upper (obj : pyval) : outcome (list N) :=
  match obj with
  | PStr s => Ret (PyStr.upper s)
  | _ => Raise (AttributeError "upper")
  end.

Definition strip (obj : pyval) : outcome string :=
  match obj with
  | PStr s => Ret (PyStr.strip s)
  | _ => Raise (AttributeError "strip")
  end.

Definition codes_eqb (a b : list N) : bool :=
  if list_eq_dec N.eq_dec a b then true else false.

End Py.

(* ===================================================================== *)
(** ** Pure helpers of the built-ins used by the code *)
(* ===================================================================== *)

(** [l[:k]] *)
Definition slice_to (A : Type) (l : list A) (k : Z) : list A :=
  if 0 <=? k then firstn (Z.to_nat k) l
  else firstn (Z.to_nat (Z.of_nat (List.length l) + k)) l.

(** [for x in xs: acc.append(f(x))] *)
Definition append_each (A B : Type) (f : A -> B) (xs : list A) (acc : list B) : list B :=
  fold_left (fun acc x => (acc ++ [f x])%list) xs acc.

(** A [dict] with [str] keys, as its items in insertion order. *)
Module StrDict.

(** [d[k] = v]: a key already present keeps its place. *)
Fixpoint set (V : Type) (k : string) (v : V) (d : list (string * V)) : list (string * V) :=
  match d with
  | [] => [(k, v)]
  | (k', v') :: rest =>
      if String.eqb k k' then (k', v) :: rest else (k', v') :: set k v rest
  end.

(** [dict.fromkeys(keys)] *)
Definition fromkeys (keys : list string) : list (string * pyval) :=
  fold_left (fun d k => set k PNone d) keys [].

(** [list(d)] *)
Definition keys (V : Type) (d : list (string * V)) : list string := map fst d.

End StrDict.

(* ===================================================================== *)
(** ** Domain suggestions (pure) *)
(* ===================================================================== *)

Definition COMMON_TLDS : list string :=
  [".com"; ".net"; ".org"; ".io"; ".co"; ".ai"; ".xyz"; ".tech"; ".dev";
   ".app"; ".tv"; ".me"; ".link"; ".shop"].

Definition prefixes : list string :=
  ["get"; "try"; "the"; "my"; "use"; "go"; "hey"; "join"; "is"; "do"; "pro"; "ultra"].

Definition suffixes : list string :=
  ["app"; "hq"; "space"; "online"; "site"; "hub"; "labs"; "io"; "dev"; "pro"; "tv"; "cloud"].

Definition double_suffixes : list string :=
  ["hub.io"; "labs.io"; "dev.io"; "app.io"; "online.io"].

Definition variations (label : string) : list string :=
  [label ++ "app.com"; label ++ "pro.com"; label ++ "online.com"; label ++ "ai.com"].

(** [query.split(".")[0] if "." in query else query] *)
Definition label_of (query : string) : string :=
  if PyStr.has_dot query then nth 0 (PyStr.split PyStr.dot query) EmptyString else query.

(** The list [candidates] when the last loop is over. *)
Definition candidates (label : string) : list string :=
  let c0 := [] in
  let c1 := append_each (fun tld => label ++ tld) COMMON_TLDS c0 in
  let c2 := append_each (fun p => p ++ label ++ ".com") prefixes c1 in
  let c3 := append_each (fun s => label ++ s ++ ".com") suffixes c2 in
  let c4 := append_each (fun ds => label ++ "." ++ ds) double_suffixes c3 in
  let c5 := append_each (fun var => var) (variations label) c4 in
  c5.

Definition generate_suggestions (query : string) (max_suggestions : Z) : list string :=
  let query := PyStr.lower query in
  let label := label_of query in
  slice_to (StrDict.keys (StrDict.fromkeys (candidates label))) (max_suggestions * 3).

(* ===================================================================== *)
(** ** The outside world, the table and the monad *)
(* ===================================================================== *)

(** What [requests.get] returns: the status line and what [.json()] gives
    on the body. *)
Record Response : Type := { status_code : Z; json : outcome pyval }.

(** class Notification(db.Model) *)
Record Notification : Type := {
  id : Z;
  domain : string;
  email : string;
  notified : bool;
  created_at : pyfloat
}.

(** The lines [process_notifications] prints. *)
Inductive log_line : Type :=
| EmailSent (to : string)
| EmailSendFailed (e : pyexn)
| WhoisFailed (e : pyexn).

(** The calls that leave the process, with what came back. *)
Inductive event : Type :=
| Lookup (domainName : string) (r : outcome Response)
| Mail (to subject body : string) (r : outcome unit)
| Printed (line : log_line).

(** Body of a handler's JSON reply. [BError e] is [{"error": str(e)}]. *)
Inductive body : Type :=
| BError (e : pyexn)
| BCheck (domain : string) (available : bool) (suggestions : list string)
| BMessage (message : string).

Section App.

(** The world outside the process and the calls into it. Each call
    returns what came back and the world after it. *)
Variable World : Type.

(** [requests.get(url, params={apiKey, domainName}, timeout=10)] *)
Variable requests_get : string -> World -> outcome Response * World.

(** The SMTP session of [send_email]: connect, [starttls], [login],
    [sendmail] of the message built from recipient, subject and body. *)
Variable smtp_session : string -> string -> string -> World -> outcome unit * World.

(** [time.time()] *)
Variable time_time : World -> pyfloat * World.

(** [int(s)] on a [str]: [None] when it raises [ValueError]. *)
Variable int_of_str : string -> option Z.

Record state : Type := {
  db : list Notification;       (* the table, in insertion order *)
  world : World;
  trace : list event            (* oldest first *)
}.

Definition M (A : Type) : Type := state -> outcome A * state.

Definition ret (A : Type) (a : A) : M A := fun s => (Ret a, s).

Definition raise (A : Type) (e : pyexn) : M A := fun s => (Raise e, s).
Arguments raise {A} e.

Definition lift (A : Type) (o : outcome A) : M A := fun s => (o, s).

Definition bind (A B : Type) (m : M A) (f : A -> M B) : M B :=
  fun s =>
    match m s with
    | (Ret a, s') => f a s'
    | (Raise e, s') => (Raise e, s')
    end.

(** [try: m  except Exception as e: h e] *)
Definition try_except (A : Type) (m : M A) (h : pyexn -> M A) : M A :=
  fun s =>
    match m s with
    | (Ret a, s') => (Ret a, s')
    | (Raise e, s') => h e s'
    end.

Notation "x <- m ;; k" := (bind m (fun x => k))
  (at level 61, m at next level, right associativity).
Notation "m ;;; k" := (bind m (fun _ => k))
  (at level 61, right associativity).

Definition record_event (ev : event) (s : state) : state :=
  {| db := db s; world := world s; trace := (trace s ++ [ev])%list |}.

Definition set_world (w : World) (s : state) : state :=
  {| db := db s; world := w; trace := trace s |}.

Definition set_db (t : list Notification) (s : state) : state :=
  {| db := t; world := world s; trace := trace s |}.

Definition http_get (domainName : string) : M Response :=
  fun s =>
    let (r, w) := requests_get domainName (world s) in
    (r, record_event (Lookup domainName r) (set_world w s)).

Definition print (line : log_line) : M unit :=
  fun s => (Ret tt, record_event (Printed line) s).

(* ------------------------------------------------------------------- *)
(** *** WHOIS API check *)

Definition whoisxml_check (domain : string) : M bool :=
  r <- try_except
         (response <- http_get domain ;;
          data <- lift (json response) ;;
          nested <- lift (Py.contains "DomainInfo" data) ;;
          status <- (if nested : bool
                     then info <- lift (Py.getitem data "DomainInfo") ;;
                          lift (Py.get info "domainAvailability" PNone)
                     else lift (Py.get data "domainAvailability" PNone)) ;;
          if Py.truthy status
          then up <- lift (Py.upper status) ;;
               ret (Some (Py.codes_eqb up (PyStr.codes "AVAILABLE")))
          else ret None)
         (fun e => raise (RuntimeError "WHOIS API error: " e)) ;;
  match r with
  | Some answer => ret answer
  | None => ret false
  end.

(* ------------------------------------------------------------------- *)
(** *** Send email *)

Definition send_email (to_email subject body : string) : M unit :=
  fun s =>
    let (r, w) := smtp_session to_email subject body (world s) in
    (r, record_event (Mail to_email subject body r) (set_world w s)).

(* ------------------------------------------------------------------- *)
(** *** POST /check *)

(** [int(v)] *)
Definition py_int (v : pyval) : outcome Z :=
  match v with
  | PInt n => Ret n
  | PBool b => Ret (if b then 1 else 0)
  | PFloat (FFinite q) => Ret (Z.quot (Qnum q) (Zpos (Qden q)))
  | PFloat FNan => Raise ValueError
  | PFloat (FInf _) => Raise OverflowError
  | PStr s => match int_of_str s with Some n => Ret n | None => Raise ValueError end
  | PNone | PList _ | PDict _ => Raise (TypeError "int() argument")
  end.

(** [x.strip().lower()] *)
Definition strip_lower (x : pyval) : outcome string :=
  match Py.strip x with
  | Ret s => Ret (PyStr.lower s)
  | Raise e => Raise e
  end.

(** The loop over the candidates; [suggestions] is the list built so
    far. The result is the list when the loop is left. *)
Fixpoint filter_available (cands : list string) (max_suggestions : Z)
         (suggestions : list string) : M (list string) :=
  match cands with
  | [] => ret suggestions
  | cand :: rest =>
      step <- try_except
                (ok <- whoisxml_check cand ;;
                 let suggestions' :=
                   if ok : bool then (suggestions ++ [cand])%list else suggestions in
                 if Z.of_nat (List.length suggestions') >=? max_suggestions
                 then ret (suggestions', true)          (* break *)
                 else ret (suggestions', false))
                (fun _ => ret (suggestions, false)) ;;  (* continue *)
      let (suggestions', stop) := step : list string * bool in
      if stop then ret suggestions' else filter_available rest max_suggestions suggestions'
  end.

Definition check_domain (data : pyval) : M (body * Z) :=
  q <- lift (Py.get data "query" (PStr EmptyString)) ;;
  query <- lift (strip_lower q) ;;
  m <- lift (Py.get data "max_suggestions" (PInt 6)) ;;
  max_suggestions <- lift (py_int m) ;;
  let domain := if PyStr.has_dot query then query else query ++ ".com" in
  primary <- try_except
               (available <- whoisxml_check domain ;; ret (inl available))
               (fun e => ret (inr (BError e, 500))) ;;
  match primary with
  | inr reply => ret reply
  | inl available =>
      suggestions <- filter_available (generate_suggestions query max_suggestions)
                                      max_suggestions [] ;;
      ret (BCheck domain available suggestions, 200)
  end.

(* ------------------------------------------------------------------- *)
(** *** POST /notify *)

(** [filter_by(domain=domain, email=email, notified=False)] *)
Definition is_active_for (domain0 email0 : string) (r : Notification) : bool :=
  String.eqb (domain r) domain0 && String.eqb (email r) email0 && negb (notified r).

Definition query_first (p : Notification -> bool) : M (option Notification) :=
  fun s => (Ret (find p (db s)), s).

Definition query_all (p : Notification -> bool) : M (list Notification) :=
  fun s => (Ret (filter p (db s)), s).

(** The next primary key: one above the largest in the table. *)
Definition next_id (t : list Notification) : Z :=
  1 + fold_right Z.max 0 (map id t).

(** [db.session.add(Notification(domain=..., email=...)); db.session.commit()]:
    the column defaults fill [notified] and [created_at]. *)
Definition add_and_commit (domain0 email0 : string) : M unit :=
  fun s =>
    let (now, w) := time_time (world s) in
    let row := {| id := next_id (db s); domain := domain0; email := email0;
                  notified := false; created_at := now |} in
    (Ret tt, set_db (db s ++ [row])%list (set_world w s)).

Definition notify (data : pyval) : M (body * Z) :=
  d <- lift (Py.get data "domain" (PStr EmptyString)) ;;
  domain0 <- lift (strip_lower d) ;;
  e <- lift (Py.get data "email" (PStr EmptyString)) ;;
  email0 <- lift (strip_lower e) ;;
  let domain1 := if negb (PyStr.has_dot domain0) then domain0 ++ ".com" else domain0 in
  existing <- query_first (is_active_for domain1 email0) ;;
  match existing with
  | Some _ => ret (BMessage "Already registered for this domain", 200)
  | None =>
      add_and_commit domain1 email0 ;;;
      ret (BMessage "Notification registered", 201)
  end.

(* ------------------------------------------------------------------- *)
(** *** Background checker *)

Definition set_notified (r : Notification) : Notification :=
  {| id := id r; domain := domain r; email := email r;
     notified := true; created_at := created_at r |}.

(** [note.notified = True; db.session.commit()] for the row of key [i] *)
Definition mark_notified (i : Z) : M unit :=
  fun s =>
    (Ret tt, set_db (map (fun r => if id r =? i then set_notified r else r) (db s)) s).

Fixpoint for_each (A : Type) (l : list A) (loop_body : A -> M unit) : M unit :=
  match l with
  | [] => ret tt
  | x :: rest => loop_body x ;;; for_each rest loop_body
  end.

(** The body of the loop of [process_notifications]. *)
Definition process_note (note : Notification) : M unit :=
  try_except
    (available <- whoisxml_check (domain note) ;;
     if available : bool
     then try_except
            (send_email (email note)
                        ("Domain Available: " ++ domain note)
                        ("Good news! The domain " ++ domain note ++ " is now available.") ;;;
             mark_notified (id note) ;;;
             print (EmailSent (email note)))
            (fun e => print (EmailSendFailed e))
     else ret tt)
    (fun e => print (WhoisFailed e)).

Definition process_notifications : M unit :=
  pending <- query_all (fun r => negb (notified r)) ;;
  for_each pending process_note.

End App.

Arguments raise {World A} e.
Arguments ret {World A} a.
Arguments lift {World A} o.

(* ===================================================================== *)
(** ** Derived forms used in the statements *)
(* ===================================================================== *)

(** The status [whoisxml_check] reads from a decoded body, and the answer
    it draws from a status: the pure steps of its [try] block, in order. *)
Definition read_status (data : pyval) : outcome pyval :=
  match Py.contains "DomainInfo" data with
  | Raise e => Raise e
  | Ret true =>
      match Py.getitem data "DomainInfo" with
      | Raise e => Raise e
      | Ret info => Py.get info "domainAvailability" PNone
      end
  | Ret false => Py.get data "domainAvailability" PNone
  end.

Definition answer_of_status (status : pyval) : outcome bool :=
  if Py.truthy status
  then match Py.upper status with
       | Raise e => Raise e
       | Ret up => Ret (Py.codes_eqb up (PyStr.codes "AVAILABLE"))
       end
  else Ret false.

Definition whois_error (cause : pyexn) : pyexn := RuntimeError "WHOIS API error: " cause.

(** The answer of [whoisxml_check] as a function of what [requests.get]
    gave. *)
Definition whois_answer (r : outcome Response) : outcome bool :=
  match r with
  | Raise e => Raise (whois_error e)
  | Ret response =>
      match json response with
      | Raise e => Raise (whois_error e)
      | Ret data =>
          match read_status data with
          | Raise e => Raise (whois_error e)
          | Ret status =>
              match answer_of_status status with
              | Raise e => Raise (whois_error e)
              | Ret answer => Ret answer
              end
          end
      end
  end.

(** The normalization both handlers apply to the domain they are given. *)
Definition normalize (raw : string) : string := PyStr.lower (PyStr.strip raw).

Definition normalize_domain (raw : string) : string :=
  let d := normalize raw in
  if PyStr.has_dot d then d else d ++ ".com".

(** The two replies of [notify]. *)
Definition already : body * Z := (BMessage "Already registered for this domain", 200).
Definition created : body * Z := (BMessage "Notification registered", 201).

(** The texts of the notification mail. *)
Definition mail_subject (d : string) : string := "Domain Available: " ++ d.
Definition mail_body (d : string) : string :=
  "Good news! The domain " ++ d ++ " is now available.".

(** The row of key [i]. *)
Definition row_of (i : Z) (t : list Notification) : option Notification :=
  find (fun r => id r =? i) t.

Definition active (r : Notification) : bool := negb (notified r).

(** Number of active rows of a (domain, email) pair. *)
Definition active_count (d e : string) (t : list Notification) : nat :=
  List.length (filter (is_active_for d e) t).

(** The two constraints on the table: the primary key, and at most one
    active row per pair. *)
Definition unique_ids (t : list Notification) : Prop := NoDup (map id t).

Definition one_active_per_pair (t : list Notification) : Prop :=
  forall d e, (active_count d e t <= 1)%nat.

(* --------------------------------------------------------------------- *)
(** *** The wording of the specification *)

(** Two strings are equal when case is ignored. *)
Definition equal_ignoring_case (a b : string) : bool :=
  String.eqb (PyStr.lower a) (PyStr.lower b).

(** The code points of the letters of AVAILABLE. *)
Definition plain_letter (U : N) : bool :=
  existsb (N.eqb U) [65; 66; 69; 73; 76; 86]%N.

(** The field of an object, [None] when the object lacks it. *)
Definition field (k : string) (items : list (string * pyval)) : pyval :=
  match Py.dict_lookup k items with
  | Some v => v
  | None => PNone
  end.

(** The text a handler reads from a field of the request object: the
    empty string when the object lacks the field, none when the value of
    the field is no string. *)
Definition text_field (k : string) (items : list (string * pyval)) : option string :=
  match Py.dict_lookup k items with
  | None => Some EmptyString
  | Some (PStr x) => Some x
  | Some _ => None
  end.

(** The status of a decoded object: the field under its DomainInfo object
    when it has a DomainInfo entry, the top-level field otherwise. There
    is none when the DomainInfo entry is not an object. *)
Definition status_field (items : list (string * pyval)) : option pyval :=
  match Py.dict_lookup "DomainInfo" items with
  | Some (PDict info) => Some (field "domainAvailability" info)
  | Some _ => None
  | None => Some (field "domainAvailability" items)
  end.

Definition lacks (k : string) (items : list (string * pyval)) : bool :=
  match Py.dict_lookup k items with
  | Some _ => false
  | None => true
  end.

(** A decoded body carries an availability field: it is an object with
    the field at top level or under a DomainInfo object. *)
Definition carries_availability (data : pyval) : bool :=
  match data with
  | PDict items =>
      negb (lacks "domainAvailability" items) ||
      match Py.dict_lookup "DomainInfo" items with
      | Some (PDict info) => negb (lacks "domainAvailability" info)
      | _ => false
      end
  | _ => false
  end.

Definition mem (x : string) (l : list string) : bool := existsb (String.eqb x) l.

(** Keep the first occurrence of each string: an element stays when it is
    not among those [seen] before it. *)
Fixpoint first_occurrences (seen l : list string) : list string :=
  match l with
  | [] => []
  | x :: rest =>
      if mem x seen then first_occurrences seen rest
      else x :: first_occurrences (x :: seen) rest
  end.

(** The five source lists of the candidate pool. *)
Definition tld_variants (label : string) : list string :=
  map (fun tld => label ++ tld) COMMON_TLDS.
Definition prefix_variants (label : string) : list string :=
  map (fun p => p ++ label ++ ".com") prefixes.
Definition suffix_variants (label : string) : list string :=
  map (fun s => label ++ s ++ ".com") suffixes.
Definition chained_variants (label : string) : list string :=
  map (fun ds => label ++ "." ++ ds) double_suffixes.
Definition keyword_variants (label : string) : list string := variations label.

Definition source_lists (label : string) : list string :=
  (tld_variants label ++ prefix_variants label ++ suffix_variants label
   ++ chained_variants label ++ keyword_variants label)%list.

(** The lookups and the mails of a list of events. *)
Definition lookup_domains (evs : list event) : list string :=
  flat_map (fun ev => match ev with Lookup d _ => [d] | _ => [] end) evs.

(** What one pending entry adds to the trace: its lookup, then, when the
    answer is "available", its mail, then the line printed if any. *)
Definition entry_block (note : Notification) (evs : list event) : Prop :=
  exists r rest,
    evs = Lookup (domain note) r :: rest /\
    match whois_answer r with
    | Ret true =>
        exists m line,
          rest = [Mail (email note) (mail_subject (domain note))
                       (mail_body (domain note)) m; Printed line]
    | Ret false => rest = []
    | Raise e => rest = [Printed (WhoisFailed e)]
    end.

(* --------------------------------------------------------------------- *)
(** *** The states the program reaches *)

Section Runs.

Variable World : Type.
Variable requests_get : string -> World -> outcome Response * World.
Variable smtp_session : string -> string -> string -> World -> outcome unit * World.
Variable time_time : World -> pyfloat * World.
Variable int_of_str : string -> option Z.

(** [db.create_all()] on a new database leaves an empty table; from there
    the table changes only through the handlers and the background job,
    one call at a time. *)
Inductive reachable : state World -> Prop :=
| reach_start (w : World) (tr : list event) :
    reachable {| db := []; world := w; trace := tr |}
| reach_check (s : state World) (data : pyval) :
    reachable s ->
    reachable (snd (check_domain requests_get int_of_str data s))
| reach_notify (s : state World) (data : pyval) :
    reachable s ->
    reachable (snd (notify time_time data s))
| reach_poll (s : state World) :
    reachable s ->
    reachable (snd (process_notifications requests_get smtp_session s)).

(** The state after the call [requests.get] for [d] made in [s]. *)
Definition after_lookup (d : string) (s : state World) : state World :=
  record_event (Lookup d (fst (requests_get d (world s))))
               (set_world (snd (requests_get d (world s))) s).

(** The state after the SMTP session for [note] run in [s]. *)
Definition after_mail (note : Notification) (s : state World) : state World :=
  let to := email note in
  let subject := mail_subject (domain note) in
  let text := mail_body (domain note) in
  record_event (Mail to subject text (fst (smtp_session to subject text (world s))))
               (set_world (snd (smtp_session to subject text (world s))) s).

(** The table with the row of key [i] marked. *)
Definition mark (i : Z) (t : list Notification) : list Notification :=
  map (fun r => if id r =? i then set_notified r else r) t.

(** The state after the loop body of [process_notifications] for [note]
    run in [s]. *)
Definition after_note (note : Notification) (s : state World) : state World :=
  let s1 := after_lookup (domain note) s in
  match whois_answer (fst (requests_get (domain note) (world s))) with
  | Ret true =>
      let s2 := after_mail note s1 in
      match fst (smtp_session (email note) (mail_subject (domain note))
                              (mail_body (domain note)) (world s1)) with
      | Ret _ => record_event (Printed (EmailSent (email note)))
                              (set_db (mark (id note) (db s2)) s2)
      | Raise e => record_event (Printed (EmailSendFailed e)) s2
      end
  | Ret false => s1
  | Raise e => record_event (Printed (WhoisFailed e)) s1
  end.

(** The lookup for [note] made in [s] answers "available" and the
    [send_email] that follows returns. *)
Definition delivered (note : Notification) (s : state World) : bool :=
  match whois_answer (fst (requests_get (domain note) (world s))) with
  | Ret true =>
      match fst (smtp_session (email note) (mail_subject (domain note))
                              (mail_body (domain note))
                              (world (after_lookup (domain note) s))) with
      | Ret _ => true
      | Raise _ => false
      end
  | _ => false
  end.

(** The row a registration of the pair inserts in [s], and the state
    after the insertion. *)
Definition new_row (d e : string) (s : state World) : Notification :=
  {| id := next_id (db s); domain := d; email := e; notified := false;
     created_at := fst (time_time (world s)) |}.

Definition after_insert (d e : string) (s : state World) : state World :=
  set_db (db s ++ [new_row d e s])%list (set_world (snd (time_time (world s))) s).

(** The state after the loop over [l] started in [s]. *)
Definition after_notes (l : list Notification) (s : state World) : state World :=
  fold_left (fun s note => after_note note s) l s.

End Runs.

(* ===================================================================== *)
(** ** The rest of the module: configuration, the SMTP session, runs *)
(* ===================================================================== *)

(* --------------------------------------------------------------------- *)
(** *** Load environment variables *)

Module Config.

(** [os.environ], once [load_dotenv()] has run. *)
Definition environ : Type := string -> option string.

(** [os.getenv(key)] and [os.getenv(key, default)] *)
Definition getenv (env : environ) (key : string) : option string := env key.

Definition getenv_default (A : Type) (some : string -> A) (env : environ)
           (key : string) (default : A) : A :=
  match env key with
  | Some v => some v
  | None => default
  end.

(** The module-level names the assignments bind. *)
Record settings : Type := {
  WHOISXML_API_KEY : option string;
  SMTP_HOST : option string;
  SMTP_PORT : Z;
  SMTP_EMAIL : option string;
  SMTP_PASSWORD : option string;
  FROM_EMAIL : option string;
  CHECK_INTERVAL_SECONDS : Z;
  DATABASE_URL : string
}.

(** What stops the module from loading: [int] raising [ValueError] on the
    text of a setting, or the [RuntimeError] of the check of the key. *)
Inductive load_error : Type :=
| IntValueError (setting text : string)
| KeyMissing.

(** [not v] for [v] a [str] or [None] *)
Definition falsy (v : option string) : bool :=
  match v with
  | None => true
  | Some k => String.eqb k EmptyString
  end.

(** The assignments in their order, then the check of the key. *)
Definition load (int_of_str : string -> option Z) (env : environ)
  : load_error + settings :=
  let key := getenv env "WHOISXML_API_KEY" in
  let host := getenv env "SMTP_HOST" in
  let port_text := getenv_default (fun v => v) env "SMTP_PORT" "587" in
  match int_of_str port_text with
  | None => inl (IntValueError "SMTP_PORT" port_text)
  | Some port =>
      let user := getenv env "SMTP_EMAIL" in
      let password := getenv env "SMTP_PASSWORD" in
      let sender := getenv_default (@Some string) env "FROM_EMAIL" user in
      let interval_text :=
        getenv_default (fun v => v) env "CHECK_INTERVAL_SECONDS" "300" in
      match int_of_str interval_text with
      | None => inl (IntValueError "CHECK_INTERVAL_SECONDS" interval_text)
      | Some interval =>
          let url := getenv_default (fun v => v) env "DATABASE_URL"
                                    "sqlite:///domains.db" in
          if falsy key then inl KeyMissing
          else inr {| WHOISXML_API_KEY := key; SMTP_HOST := host;
                      SMTP_PORT := port; SMTP_EMAIL := user;
                      SMTP_PASSWORD := password; FROM_EMAIL := sender;
                      CHECK_INTERVAL_SECONDS := interval; DATABASE_URL := url |}
      end
  end.

End Config.

(* --------------------------------------------------------------------- *)
(** *** The SMTP session of [send_email] *)

(** The message [send_email] builds: [MIMEText(body)] with its three
    headers set. *)
Record MIMEText : Type := {
  payload : string;
  Subject : string;
  From : option string;
  To : string
}.

(** The calls [send_email] makes on [smtplib]. [SMTP_sendmail] stands for
    [msg.as_string()] followed by [smtp.sendmail]; [SMTP_exit] for what
    leaving the [with] block runs, [QUIT] and the closing of the socket. *)
Inductive smtp_call : Type :=
| SMTP_connect (host : option string) (port : Z)
| SMTP_starttls
| SMTP_login (user password : option string)
| SMTP_sendmail (from_addr : option string) (to_addrs : list string) (msg : MIMEText)
| SMTP_exit.

Section Smtp.

Variable World : Type.

(** What a call on [smtplib] does: it returns or raises, and the world
    moves on. *)
Variable smtplib : smtp_call -> World -> outcome unit * World.

Variable cfg : Config.settings.

(** The body of the [with] block: each call is made when the one before
    it has returned. The result comes with the calls made. *)
Definition with_block (msg : MIMEText) (to_email : string) (w : World)
  : outcome unit * list smtp_call * World :=
  let starttls := SMTP_starttls in
  let login := SMTP_login (Config.SMTP_EMAIL cfg) (Config.SMTP_PASSWORD cfg) in
  let sendmail := SMTP_sendmail (Config.FROM_EMAIL cfg) [to_email] msg in
  match smtplib starttls w with
  | (Raise e, w1) => (Raise e, [starttls], w1)
  | (Ret _, w1) =>
      match smtplib login w1 with
      | (Raise e, w2) => (Raise e, [starttls; login], w2)
      | (Ret _, w2) =>
          let (r, w3) := smtplib sendmail w2 in
          (r, [starttls; login; sendmail], w3)
      end
  end.

(** [send_email] down to the calls on [smtplib]. Leaving the [with] block
    runs [__exit__] whether the block returned or raised; what [__exit__]
    raises replaces what the block raised. *)
Definition send_email_calls (to_email subject body : string) (w : World)
  : outcome unit * list smtp_call * World :=
  let msg := {| payload := body; Subject := subject;
                From := Config.FROM_EMAIL cfg; To := to_email |} in
  let connect := SMTP_connect (Config.SMTP_HOST cfg) (Config.SMTP_PORT cfg) in
  match smtplib connect w with
  | (Raise e, w1) => (Raise e, [connect], w1)
  | (Ret _, w1) =>
      let '(r, calls, w2) := with_block msg to_email w1 in
      let (x, w3) := smtplib SMTP_exit w2 in
      (match x with Raise e => Raise e | Ret _ => r end,
       (connect :: calls ++ [SMTP_exit])%list, w3)
  end.

(** The session as [send_email] of the model takes it. *)
Definition smtp_session_calls (to_email subject body : string) (w : World)
  : outcome unit * World :=
  let '(r, _, w') := send_email_calls to_email subject body w in (r, w').

End Smtp.

(* --------------------------------------------------------------------- *)
(** *** The route of /notify from its first line *)

(** [data = request.json], then the rest of the handler. [request.json]
    gives the decoded body, or raises what werkzeug raises on a request it
    refuses: no JSON content type, a body that does not decode. *)
Definition notify_route (World : Type) (time_time : World -> pyfloat * World)
           (request_json : outcome pyval) : M World (body * Z) :=
  bind (lift request_json) (fun data => notify time_time data).

(* --------------------------------------------------------------------- *)
(** *** Sequences of requests and cycles *)

(** What happens to the process: a request on /check, a request on
    /notify, a tick of the scheduler. *)
Inductive op : Type :=
| PostCheck (data : pyval)
| PostNotify (data : pyval)
| Tick.

Section Ops.

Variable World : Type.
Variable requests_get : string -> World -> outcome Response * World.
Variable smtp_session : string -> string -> string -> World -> outcome unit * World.
Variable time_time : World -> pyfloat * World.
Variable int_of_str : string -> option Z.

Definition run_op (o : op) (s : state World) : state World :=
  match o with
  | PostCheck data => snd (check_domain requests_get int_of_str data s)
  | PostNotify data => snd (notify time_time data s)
  | Tick => snd (process_notifications requests_get smtp_session s)
  end.

Definition run_ops (l : list op) (s : state World) : state World :=
  fold_left (fun s o => run_op o s) l s.

End Ops.

(** The calls of [send_email] that returned, in a trace. A call returns
    when the whole SMTP session has, the exit of its [with] block
    included; a message the relay took in a session that failed later is
    not among them. *)
Definition send_returned (ev : event) : bool :=
  match ev with
  | Mail _ _ _ (Ret _) => true
  | _ => false
  end.

Definition sends_returned (tr : list event) : nat := List.length (filter send_returned tr).

(** The calls to the endpoint, in a trace. *)
Definition is_lookup (ev : event) : bool :=
  match ev with
  | Lookup _ _ => true
  | _ => false
  end.

Definition notified_count (t : list Notification) : nat :=
  List.length (filter notified t).

(** [r'] is [r] with at most its flag raised. *)
Definition flag_raised (r r' : Notification) : Prop :=
  r' = r \/ (notified r = false /\ r' = set_notified r).

(** A row as /notify stores it: its domain and its email are left as they
    are by the normalization, and the domain has a dot. *)
Definition normal_row (r : Notification) : Prop :=
  normalize_domain (domain r) = domain r /\
  normalize (email r) = email r /\
  PyStr.has_dot (domain r) = true.

(** The candidate pool with each of its three repeated entries written
    once: the suffixes "app", "pro" and "online" are keywords too. *)
Definition distinct_pool (label : string) : list string :=
  (tld_variants label ++ prefix_variants label ++ suffix_variants label
   ++ chained_variants label ++ [(label ++ "ai.com")%string])%list.

(** A call returned: it did not raise. *)
Definition returned (A W : Type) (x : outcome A * W) : bool :=
  match fst x with
  | Ret _ => true
  | Raise _ => false
  end.

(** A string that does not begin with white space. *)
Definition no_lead (s : string) : Prop :=
  match s with
  | EmptyString => True
  | String c _ => PyStr.is_space c = false
  end.

(** [l1] is [l2] with some entries left out. *)
Inductive subsequence (A : Type) : list A -> list A -> Prop :=
| subseq_nil : subsequence [] []
| subseq_skip (x : A) (l1 l2 : list A) :
    subsequence l1 l2 -> subsequence l1 (x :: l2)
| subseq_take (x : A) (l1 l2 : list A) :
    subsequence l1 l2 -> subsequence (x :: l1) (x :: l2).

(** The request body with a domain and an email. *)
Definition notify_request (d e : string) : pyval :=
  PDict [("domain", PStr d); ("email", PStr e)].

(* ===================================================================== *)
(** ** Concrete worlds, for running the model *)
(* ===================================================================== *)

Module Demo.

(** A world that counts the calls made into it. *)
Definition World : Type := nat.

(** The endpoint answers each domain by a fixed table. *)
Definition endpoint (table : string -> outcome Response)
  : string -> World -> outcome Response * World :=
  fun d n => (table d, S n).

Definition reply (code : Z) (data : pyval) : outcome Response :=
  Ret {| status_code := code; json := Ret data |}.

Definition flat (status : pyval) : pyval := PDict [("domainAvailability", status)].

Definition nested (status : pyval) : pyval :=
  PDict [("DomainInfo", PDict [("domainAvailability", status)])].

(** The relay accepts the recipients [ok] holds for. *)
Definition relay (ok : string -> bool)
  : string -> string -> string -> World -> outcome unit * World :=
  fun to _ _ n =>
    (if ok to then Ret tt else Raise (External "SMTPException"), S n).

Definition clock : World -> pyfloat * World :=
  fun n => (FFinite (Z.of_nat n # 1), S n).

(** Decimal [int(s)]: surrounding white space, an optional sign, digits
    with single underscores between them. The white space [int] skips is
    not all of [str.isspace]: U+001C to U+001F are refused. *)
Inductive lexpos : Type := AtStart | AfterDigit | AfterUnderscore.

Definition int_space (c : ascii) : bool :=
  PyStr.is_space c && negb (PyStr.between 28 31 (PyStr.code c)).

Fixpoint skip_leading (s : string) : string :=
  match s with
  | EmptyString => EmptyString
  | String c s' => if int_space c then skip_leading s' else s
  end.

Fixpoint skip_trailing (s : string) : string :=
  match s with
  | EmptyString => EmptyString
  | String c s' =>
      match skip_trailing s' with
      | EmptyString => if int_space c then EmptyString else String c EmptyString
      | r => String c r
      end
  end.

Fixpoint digits (s : string) (acc : Z) (p : lexpos) : option Z :=
  match s with
  | EmptyString => match p with AfterDigit => Some acc | _ => None end
  | String c rest =>
      let n := PyStr.code c in
      if PyStr.between 48 57 n then digits rest (10 * acc + Z.of_N (n - 48)) AfterDigit
      else if (n =? 95)%N
           then match p with AfterDigit => digits rest acc AfterUnderscore | _ => None end
           else None
  end.

Definition int_of_str (s : string) : option Z :=
  match skip_trailing (skip_leading s) with
  | String "+" rest => digits rest 0 AtStart
  | String "-" rest => option_map Z.opp (digits rest 0 AtStart)
  | t => digits t 0 AtStart
  end.

Definition start : state World := {| db := []; world := 0%nat; trace := [] |}.

Definition everything_available : string -> outcome Response :=
  fun _ => reply 200 (flat (PStr "AVAILABLE")).

Definition nothing_available : string -> outcome Response :=
  fun _ => reply 200 (flat (PStr "UNAVAILABLE")).

Definition request (fields : list (string * pyval)) : pyval := PDict fields.

(** An error reply of the endpoint: it decodes, and has no availability
    field. *)
Definition quota_exceeded : string -> outcome Response :=
  fun _ => reply 429 (PDict [("code", PInt 429); ("messages", PStr "quota exceeded")]).

Definition status_is_true : string -> outcome Response :=
  fun _ => reply 200 (flat (PBool true)).

(** Only free.xyz can be registered. *)
Definition only_free_xyz : string -> outcome Response :=
  fun d => if String.eqb d "free.xyz"
           then reply 200 (nested (PStr "available"))
           else reply 200 (flat (PStr "UNAVAILABLE")).

Definition anyone : string -> bool := fun _ => true.

Definition row (i : Z) (d e : string) (n : bool) : Notification :=
  {| id := i; domain := d; email := e; notified := n; created_at := FFinite (0 # 1) |}.

(** Two pending entries and one notified long ago. *)
Definition three_rows : state World :=
  {| db := [row 1 "free.xyz" "a@b.com" false; row 2 "taken.com" "c@d.com" false;
            row 3 "old.net" "e@f.com" true];
     world := 0%nat; trace := [] |}.

Definition wants_free_xyz : pyval :=
  request [("domain", PStr " Free.XYZ "); ("email", PStr "A@b.com")].

(** The state after one registration in a new database. *)
Definition registered : state World := snd (notify clock wants_free_xyz start).

(** The row that registration leaves. *)
Definition free_xyz_row : Notification := row 1 "free.xyz" "a@b.com" false.

(** The state after a cycle that finds free.xyz available and mails. *)
Definition notified_once : state World :=
  snd (process_notifications (endpoint only_free_xyz) (relay anyone) registered).

(** example.xyz is taken at first. *)
Definition wants_example_xyz : pyval :=
  request [("domain", PStr "example.xyz"); ("email", PStr "a@b.com")].

Definition only_example_xyz : string -> outcome Response :=
  fun d => if String.eqb d "example.xyz"
           then reply 200 (flat (PStr "AVAILABLE"))
           else reply 200 (flat (PStr "UNAVAILABLE")).

(** The endpoint times out on foo.net and finds every other domain
    available. *)
Definition foo_net_times_out : string -> outcome Response :=
  fun d => if String.eqb d "foo.net" then Raise (External "ReadTimeout")
           else reply 200 (flat (PStr "AVAILABLE")).

(** The endpoint cannot be reached. *)
Definition unreachable : string -> outcome Response :=
  fun _ => Raise (External "ConnectionError").

(** A body with a DomainInfo object that lacks the field, beside a
    top-level field. *)
Definition nested_without_field : string -> outcome Response :=
  fun _ => reply 200 (PDict [("DomainInfo", PDict []);
                             ("domainAvailability", PStr "AVAILABLE")]).

(** The relay refuses everyone. *)
Definition nobody : string -> bool := fun _ => false.

(** Error replies whose body decodes to no object, and to an object whose
    DomainInfo entry is [null]. *)
Definition quota_text : string -> outcome Response :=
  fun _ => reply 429 (PStr "quota exceeded").

Definition null_domain_info : string -> outcome Response :=
  fun _ => reply 200 (PDict [("DomainInfo", PNone)]).

(** A relay that takes every call of a session but refuses the exit of
    the [with] block. *)
Definition refuses_quit : smtp_call -> World -> outcome unit * World :=
  fun call n =>
    (match call with
     | SMTP_exit => Raise (External "SMTPResponseException")
     | _ => Ret tt
     end, S n).

(** A relay that refuses STARTTLS. *)
Definition refuses_starttls : smtp_call -> World -> outcome unit * World :=
  fun call n =>
    (match call with
     | SMTP_starttls => Raise (External "SMTPNotSupportedError")
     | _ => Ret tt
     end, S n).

(** An environment that sets the key, the relay and its account, and
    leaves the rest to the defaults. *)
Definition environment : Config.environ :=
  fun key =>
    if String.eqb key "WHOISXML_API_KEY" then Some "at_key"
    else if String.eqb key "SMTP_HOST" then Some "smtp.example.com"
    else if String.eqb key "SMTP_EMAIL" then Some "bot@example.com"
    else if String.eqb key "SMTP_PASSWORD" then Some "secret"
    else None.

Definition settings : Config.settings :=
  {| Config.WHOISXML_API_KEY := Some "at_key";
     Config.SMTP_HOST := Some "smtp.example.com";
     Config.SMTP_PORT := 587;
     Config.SMTP_EMAIL := Some "bot@example.com";
     Config.SMTP_PASSWORD := Some "secret";
     Config.FROM_EMAIL := Some "bot@example.com";
     Config.CHECK_INTERVAL_SECONDS := 300;
     Config.DATABASE_URL := "sqlite:///domains.db" |}.

(** The same registration as [wants_free_xyz], written another way. *)
Definition wants_free_xyz_again : pyval :=
  request [("email", PStr "  a@B.COM"); ("domain", PStr "FREE.xyz  ")].

(** A query without dot, with the cap 2. *)
Definition asks_foo : pyval :=
  request [("query", PStr "Foo"); ("max_suggestions", PInt 2)].

End Demo.

(* ===================================================================== *)
(** ** Properties of the string operations *)
(* ===================================================================== *)

Module PyStrFacts.
Import PyStr.

Ltac by_cases_on_char c :=
  destruct c as [[] [] [] [] [] [] [] []]; vm_compute; try reflexivity; try congruence.

Lemma lower_char_dot c : Ascii.eqb (lower_char c) dot = Ascii.eqb c dot.
Proof. by_cases_on_char c. Qed.

Lemma lower_char_letter c :
  forallb (fun U => Bool.eqb (Py.codes_eqb (upper_char c) [U])
                             (Ascii.eqb (lower_char c) (ascii_of_N (U + 32))))
          [65; 66; 69; 73; 76; 86]%N = true.
Proof. by_cases_on_char c. Qed.

Lemma upper_char_shape c :
  (exists n, upper_char c = [n]) \/ upper_char c = [83; 83]%N.
Proof.
  destruct c as [[] [] [] [] [] [] [] []]; vm_compute;
    first [ right; reflexivity | left; eexists; reflexivity ].
Qed.

Lemma codes_eqb_eq a b : Py.codes_eqb a b = true <-> a = b.
Proof.
  unfold Py.codes_eqb. destruct (list_eq_dec N.eq_dec a b); split; congruence.
Qed.

Lemma upper_char_plain c U :
  plain_letter U = true ->
  upper_char c = [U] <-> lower_char c = ascii_of_N (U + 32).
Proof.
  intros HU. pose proof (lower_char_letter c) as H.
  rewrite forallb_forall in H.
  assert (HIn : In U [65; 66; 69; 73; 76; 86]%N).
  { unfold plain_letter in HU. apply existsb_exists in HU.
    destruct HU as [x [Hx Heq]]. apply N.eqb_eq in Heq. subst x. exact Hx. }
  specialize (H U HIn). apply Bool.eqb_prop in H.
  rewrite <- codes_eqb_eq, H. apply Ascii.eqb_eq.
Qed.

Lemma plain_letter_not_S U : plain_letter U = true -> U <> 83%N.
Proof. intros H ->. discriminate H. Qed.

Lemma upper_cons_plain c s U rest :
  plain_letter U = true ->
  upper (String c s) = U :: rest <->
  lower_char c = ascii_of_N (U + 32) /\ upper s = rest.
Proof.
  intros HU. simpl. split.
  - intros H. destruct (upper_char_shape c) as [[n Hn] | Hss].
    + rewrite Hn in H. simpl in H. injection H as -> Hrest.
      split; [ apply upper_char_plain; assumption | assumption ].
    + rewrite Hss in H. simpl in H. injection H as HS _.
      symmetry in HS. apply plain_letter_not_S in HU. contradiction.
  - intros [Hc Hs]. apply upper_char_plain in Hc; [ | assumption ].
    rewrite Hc, Hs. reflexivity.
Qed.

Lemma upper_nil s : upper s = [] <-> s = EmptyString.
Proof.
  destruct s as [ | c s]; simpl; [ tauto | ].
  split; [ | discriminate ].
  destruct (upper_char_shape c) as [[n Hn] | Hss]; [ rewrite Hn | rewrite Hss ];
    discriminate.
Qed.

(** Comparing the upper case with a word of plain capitals is comparing
    the lower cases. *)
Lemma upper_eq_lower_eq (T : string) :
  forallb plain_letter (codes T) = true ->
  forall s, upper s = codes T <-> lower s = lower T.
Proof.
  induction T as [ | U T IH]; intros HT s.
  - simpl. rewrite upper_nil. destruct s; simpl; split; congruence.
  - simpl in HT. apply andb_prop in HT. destruct HT as [HU HT].
    destruct s as [ | c s].
    + simpl. split; discriminate.
    + change (codes (String U T)) with (code U :: codes T).
      rewrite (@upper_cons_plain c s (code U) (codes T) HU), (IH HT s).
      assert (HlU : lower_char U = ascii_of_N (code U + 32)).
      { clear - HU. unfold plain_letter in HU. apply existsb_exists in HU.
        destruct HU as [x [Hx Heq]]. apply N.eqb_eq in Heq.
        assert (U = ascii_of_N x) as -> by (rewrite <- Heq; unfold code;
                                           symmetry; apply ascii_N_embedding).
        simpl in Hx.
        repeat (destruct Hx as [<- | Hx]; [ reflexivity | ]). contradiction. }
      simpl. rewrite HlU. split.
      * intros [-> ->]. reflexivity.
      * intros H. injection H as -> ->. split; reflexivity.
Qed.

Lemma prefix_dot c s : String.prefix "." (String c s) = Ascii.eqb c dot.
Proof.
  change (String.prefix "." (String c s))
    with (if ascii_dec "." c then String.prefix EmptyString s else false).
  destruct (ascii_dec "." c) as [<- | Hne].
  - destruct s; reflexivity.
  - symmetry. apply Ascii.eqb_neq. intros ->. apply Hne. reflexivity.
Qed.

Lemma has_dot_cons c s : has_dot (String c s) = Ascii.eqb c dot || has_dot s.
Proof.
  unfold has_dot. cbn [contains]. rewrite prefix_dot. reflexivity.
Qed.

Lemma has_dot_lower s : has_dot (lower s) = has_dot s.
Proof.
  induction s as [ | c s IH]; [ reflexivity | ].
  cbn [lower]. rewrite !has_dot_cons, lower_char_dot, IH. reflexivity.
Qed.

Lemma space_not_dot c : is_space c = true -> Ascii.eqb c dot = false.
Proof. by_cases_on_char c. Qed.

Lemma has_dot_lstrip s : has_dot (lstrip s) = has_dot s.
Proof.
  induction s as [ | c s IH]; [ reflexivity | ].
  cbn [lstrip]. destruct (is_space c) eqn:Hsp; [ | reflexivity ].
  rewrite has_dot_cons, (space_not_dot c Hsp), IH. reflexivity.
Qed.

Lemma has_dot_rstrip s : has_dot (rstrip s) = has_dot s.
Proof.
  induction s as [ | c s IH]; [ reflexivity | ].
  cbn [rstrip]. rewrite has_dot_cons.
  destruct (rstrip s) as [ | c' r] eqn:Hr.
  - rewrite <- IH. destruct (is_space c) eqn:Hsp.
    + rewrite (space_not_dot c Hsp). reflexivity.
    + rewrite has_dot_cons. reflexivity.
  - rewrite has_dot_cons, <- IH. reflexivity.
Qed.

Lemma has_dot_strip s : has_dot (strip s) = has_dot s.
Proof. unfold strip. rewrite has_dot_rstrip. apply has_dot_lstrip. Qed.

End PyStrFacts.

(* ===================================================================== *)
(** ** Properties of the suggestion generator *)
(* ===================================================================== *)

Module SuggestionFacts.

Lemma append_each_map (A B : Type) (f : A -> B) (xs : list A) (acc : list B) :
  append_each f xs acc = (acc ++ map f xs)%list.
Proof.
  unfold append_each. revert acc.
  induction xs as [ | x xs IH]; intros acc; simpl.
  - symmetry. apply app_nil_r.
  - rewrite IH, <- app_assoc. reflexivity.
Qed.

Lemma candidates_source_lists (label : string) :
  candidates label = source_lists label.
Proof.
  unfold candidates, source_lists, tld_variants, prefix_variants,
    suffix_variants, chained_variants, keyword_variants.
  rewrite !append_each_map, map_id, <- !app_assoc. reflexivity.
Qed.

Lemma keys_set (k : string) (v : pyval) (d : list (string * pyval)) :
  StrDict.keys (StrDict.set k v d) =
  if mem k (StrDict.keys d) then StrDict.keys d else (StrDict.keys d ++ [k])%list.
Proof.
  unfold StrDict.keys, mem. induction d as [ | [k' v'] d IH]; simpl.
  - reflexivity.
  - destruct (String.eqb k k') eqn:Hk; simpl.
    + reflexivity.
    + rewrite IH. destruct (existsb (String.eqb k) (map fst d)); reflexivity.
Qed.

Lemma first_occurrences_ext (l seen seen' : list string) :
  (forall x, mem x seen = mem x seen') ->
  first_occurrences seen l = first_occurrences seen' l.
Proof.
  revert seen seen'. induction l as [ | x l IH]; intros seen seen' H; simpl.
  - reflexivity.
  - fold (mem x seen). fold (mem x seen'). rewrite <- (H x).
    destruct (mem x seen).
    + apply IH. exact H.
    + f_equal. apply IH. intros y. unfold mem. simpl.
      fold (mem y seen). fold (mem y seen'). rewrite (H y). reflexivity.
Qed.

Lemma mem_snoc x l k : mem x (l ++ [k]) = mem x (k :: l).
Proof.
  unfold mem. rewrite existsb_app. simpl.
  rewrite orb_false_r. apply orb_comm.
Qed.

Lemma keys_fold_set (ks : list string) (d : list (string * pyval)) :
  StrDict.keys (fold_left (fun d k => StrDict.set k PNone d) ks d) =
  (StrDict.keys d ++ first_occurrences (StrDict.keys d) ks)%list.
Proof.
  revert d. induction ks as [ | k ks IH]; intros d; simpl.
  - symmetry. apply app_nil_r.
  - rewrite IH, keys_set. fold (mem k (StrDict.keys d)).
    destruct (mem k (StrDict.keys d)).
    + reflexivity.
    + rewrite <- app_assoc. simpl. do 2 f_equal.
      apply first_occurrences_ext. intros x. apply mem_snoc.
Qed.

(** [list(dict.fromkeys(l))] keeps the first occurrences. *)
Lemma fromkeys_first_occurrences (l : list string) :
  StrDict.keys (StrDict.fromkeys l) = first_occurrences [] l.
Proof. unfold StrDict.fromkeys. rewrite keys_fold_set. reflexivity. Qed.

Lemma first_occurrences_fresh (l seen : list string) (x : string) :
  In x (first_occurrences seen l) -> In x l /\ mem x seen = false.
Proof.
  revert seen. induction l as [ | y l IH]; intros seen; simpl.
  - contradiction.
  - fold (mem y seen). destruct (mem y seen) eqn:Hy.
    + intros H. apply IH in H. tauto.
    + intros [<- | H]; [ tauto | ].
      apply IH in H. destruct H as [HIn Hm]. split; [ tauto | ].
      unfold mem in Hm. simpl in Hm. apply orb_false_iff in Hm. apply Hm.
Qed.

Lemma first_occurrences_NoDup (l seen : list string) :
  NoDup (first_occurrences seen l).
Proof.
  revert seen. induction l as [ | y l IH]; intros seen; simpl.
  - constructor.
  - destruct (mem y seen); [ apply IH | ].
    constructor; [ | apply IH ].
    intros H. apply first_occurrences_fresh in H. destruct H as [_ Hm].
    unfold mem in Hm. simpl in Hm. rewrite String.eqb_refl in Hm. discriminate.
Qed.

(** Every element of the list is kept, once. *)
Lemma first_occurrences_complete (l seen : list string) (x : string) :
  In x l -> mem x seen = false -> In x (first_occurrences seen l).
Proof.
  revert seen. induction l as [ | y l IH]; intros seen; simpl.
  - contradiction.
  - fold (mem y seen). intros [-> | HIn] Hm.
    + rewrite Hm. left. reflexivity.
    + destruct (String.eqb x y) eqn:Hxy.
      * apply String.eqb_eq in Hxy. subst y. rewrite Hm. left. reflexivity.
      * destruct (mem y seen); [ apply IH; assumption | ].
        right. apply IH; [ assumption | ].
        unfold mem. simpl. rewrite Hxy. exact Hm.
Qed.

Lemma NoDup_firstn (A : Type) (n : nat) (l : list A) : NoDup l -> NoDup (firstn n l).
Proof.
  intros H. rewrite <- (firstn_skipn n l) in H.
  apply NoDup_app_remove_r in H. exact H.
Qed.

Lemma slice_to_nonneg (A : Type) (l : list A) (k : Z) :
  0 <= k -> slice_to l k = firstn (Z.to_nat k) l.
Proof.
  intros H. unfold slice_to. destruct (0 <=? k) eqn:Hk; [ reflexivity | ].
  apply Z.leb_gt in Hk. lia.
Qed.

Lemma generate_suggestions_eq (q : string) (n : Z) :
  generate_suggestions q n =
  slice_to (first_occurrences [] (source_lists (label_of (PyStr.lower q)))) (n * 3).
Proof.
  unfold generate_suggestions.
  rewrite fromkeys_first_occurrences, candidates_source_lists. reflexivity.
Qed.

Lemma generate_suggestions_length (q : string) (n : Z) :
  0 <= n -> Z.of_nat (List.length (generate_suggestions q n)) <= 3 * n.
Proof.
  intros Hn. rewrite generate_suggestions_eq, slice_to_nonneg by lia.
  pose proof (firstn_le_length (Z.to_nat (n * 3))
                (first_occurrences [] (source_lists (label_of (PyStr.lower q))))).
  lia.
Qed.

(** C5. For a positive cap [n], [generate_suggestions q n] has at most
    [3 * n] entries, has no duplicate, and is the list of the TLD variants,
    the prefix variants, the suffix variants, the chained two-part-suffix
    variants and the keyword variants of the label, in this order, with
    only the first occurrence of each string kept, cut to its first
    [3 * n] entries. *)
Theorem generate_suggestions_bounded_unique_ordered (q : string) (n : Z) :
  0 < n ->
  let label := label_of (PyStr.lower q) in
  let pool :=
    (tld_variants label ++ prefix_variants label ++ suffix_variants label
     ++ chained_variants label ++ keyword_variants label)%list in
  Z.of_nat (List.length (generate_suggestions q n)) <= 3 * n /\
  NoDup (generate_suggestions q n) /\
  generate_suggestions q n = firstn (Z.to_nat (3 * n)) (first_occurrences [] pool) /\
  (forall x, In x pool -> In x (first_occurrences [] pool)).
Proof.
  intros Hn label pool.
  assert (Heq : generate_suggestions q n =
                firstn (Z.to_nat (3 * n)) (first_occurrences [] pool)).
  { rewrite generate_suggestions_eq. fold label.
    rewrite slice_to_nonneg by lia. rewrite (Z.mul_comm n 3). reflexivity. }
  rewrite Heq. repeat split.
  - pose proof (firstn_le_length (Z.to_nat (3 * n)) (first_occurrences [] pool)).
    lia.
  - apply NoDup_firstn, first_occurrences_NoDup.
  - intros x Hx. apply first_occurrences_complete; [ exact Hx | reflexivity ].
Qed.

End SuggestionFacts.

(* ===================================================================== *)
(** ** Properties of the pure parts: statuses, normalization, the table *)
(* ===================================================================== *)

Lemma mark_ids (i : Z) (t : list Notification) : map id (mark i t) = map id t.
Proof.
  unfold mark. rewrite map_map. apply map_ext.
  intros r. destruct (id r =? i); reflexivity.
Qed.

Lemma row_of_mark (i j : Z) (t : list Notification) :
  row_of i (mark j t) =
  if i =? j then option_map set_notified (row_of i t) else row_of i t.
Proof.
  unfold row_of, mark. induction t as [ | r t IH]; simpl.
  - destruct (i =? j); reflexivity.
  - destruct (id r =? j) eqn:Hrj; simpl.
    + apply Z.eqb_eq in Hrj. destruct (id r =? i) eqn:Hri.
      * apply Z.eqb_eq in Hri.
        replace (i =? j) with true by (symmetry; apply Z.eqb_eq; lia).
        reflexivity.
      * rewrite IH. reflexivity.
    + destruct (id r =? i) eqn:Hri.
      * apply Z.eqb_eq in Hri. apply Z.eqb_neq in Hrj.
        replace (i =? j) with false by (symmetry; apply Z.eqb_neq; lia).
        reflexivity.
      * rewrite IH. reflexivity.
Qed.

Lemma row_of_In (t : list Notification) (r : Notification) :
  unique_ids t -> In r t -> row_of (id r) t = Some r.
Proof.
  unfold unique_ids, row_of. induction t as [ | x t IH]; simpl; intros Hnd HIn.
  - contradiction.
  - inversion Hnd as [ | ? ? Hnotin Hnd']; subst.
    destruct HIn as [-> | HIn].
    + rewrite Z.eqb_refl. reflexivity.
    + destruct (id x =? id r) eqn:Hx.
      * apply Z.eqb_eq in Hx. exfalso. apply Hnotin. rewrite Hx.
        apply in_map. exact HIn.
      * apply IH; assumption.
Qed.

Lemma set_notified_fixed (r : Notification) : notified r = true -> set_notified r = r.
Proof. destruct r as [i d e n c]. simpl. intros ->. reflexivity. Qed.

Lemma notified_kept_by_mark (i : Z) (t : list Notification) (r : Notification) :
  In r t -> notified r = true -> In r (mark i t).
Proof.
  intros HIn Hn. unfold mark. apply in_map_iff. exists r. split; [ | exact HIn ].
  destruct (id r =? i); [ apply set_notified_fixed; exact Hn | reflexivity ].
Qed.

Lemma filter_ids_NoDup (p : Notification -> bool) (t : list Notification) :
  unique_ids t -> NoDup (map id (filter p t)).
Proof.
  unfold unique_ids. induction t as [ | r t IH]; simpl; intros Hnd.
  - constructor.
  - inversion Hnd as [ | ? ? Hnotin Hnd']; subst.
    destruct (p r); simpl; [ | apply IH; exact Hnd' ].
    constructor; [ | apply IH; exact Hnd' ].
    intros HIn. apply Hnotin. apply in_map_iff in HIn.
    destruct HIn as [x [Hx HIn]]. apply filter_In in HIn.
    apply in_map_iff. exists x. tauto.
Qed.

Lemma find_none_count (d e : string) (t : list Notification) :
  find (is_active_for d e) t = None -> active_count d e t = 0%nat.
Proof.
  unfold active_count. induction t as [ | r t IH]; simpl; [ reflexivity | ].
  destruct (is_active_for d e r); [ discriminate | exact IH ].
Qed.

Lemma find_some_count (d e : string) (t : list Notification) (r : Notification) :
  find (is_active_for d e) t = Some r -> (1 <= active_count d e t)%nat.
Proof.
  unfold active_count. induction t as [ | x t IH]; simpl; [ discriminate | ].
  destruct (is_active_for d e x); simpl; [ lia | exact IH ].
Qed.

Lemma count_none_find (d e : string) (t : list Notification) :
  active_count d e t = 0%nat -> find (is_active_for d e) t = None.
Proof.
  unfold active_count. induction t as [ | x t IH]; simpl; [ reflexivity | ].
  destruct (is_active_for d e x); simpl; [ discriminate | exact IH ].
Qed.

Lemma active_count_app (d e : string) (t u : list Notification) :
  active_count d e (t ++ u) = (active_count d e t + active_count d e u)%nat.
Proof. unfold active_count. rewrite filter_app. apply length_app. Qed.

Lemma is_active_for_pair (d e : string) (r : Notification) :
  is_active_for d e r = true <-> domain r = d /\ email r = e /\ notified r = false.
Proof.
  unfold is_active_for. rewrite !andb_true_iff, !String.eqb_eq, negb_true_iff. tauto.
Qed.

Lemma active_count_mark (d e : string) (i : Z) (t : list Notification) :
  (active_count d e (mark i t) <= active_count d e t)%nat.
Proof.
  unfold active_count, mark. induction t as [ | r t IH]; simpl; [ lia | ].
  destruct (id r =? i).
  - replace (is_active_for d e (set_notified r)) with false
      by (unfold is_active_for; simpl; rewrite andb_false_r; reflexivity).
    destruct (is_active_for d e r); simpl; lia.
  - destruct (is_active_for d e r); simpl; lia.
Qed.

Lemma id_below_next (t : list Notification) (i : Z) :
  In i (map id t) -> i < next_id t.
Proof.
  unfold next_id. induction t as [ | r t IH]; cbn [map fold_right In];
    [ contradiction | ].
  intros [<- | HIn]; [ lia | ]. apply IH in HIn. lia.
Qed.

Lemma unique_ids_insert (t : list Notification) (r : Notification) :
  unique_ids t -> id r = next_id t -> unique_ids (t ++ [r]).
Proof.
  unfold unique_ids. intros Hnd Hid. rewrite map_app. simpl.
  apply NoDup_app; [ exact Hnd | repeat constructor; intros [] | ].
  intros i HIn [<- | []]. apply id_below_next in HIn. lia.
Qed.

Lemma one_active_insert (t : list Notification) (d e : string) (r : Notification) :
  one_active_per_pair t ->
  find (is_active_for d e) t = None ->
  domain r = d -> email r = e ->
  one_active_per_pair (t ++ [r]).
Proof.
  intros Hone Hfind Hd He d' e'. rewrite active_count_app.
  unfold active_count at 2. simpl.
  destruct (is_active_for d' e' r) eqn:Hr; simpl; [ | specialize (Hone d' e'); lia ].
  apply is_active_for_pair in Hr. destruct Hr as [Hd' [He' _]].
  assert (d' = d) as -> by congruence. assert (e' = e) as -> by congruence.
  rewrite (@find_none_count _ _ _ Hfind). lia.
Qed.

Lemma short_list_unique (A : Type) (l : list A) (a b : A) :
  (List.length l <= 1)%nat -> In a l -> In b l -> a = b.
Proof.
  destruct l as [ | x [ | y l]]; simpl; intros Hlen Ha Hb.
  - contradiction.
  - destruct Ha as [<- | []]. destruct Hb as [<- | []]. reflexivity.
  - lia.
Qed.

Lemma count_zero (d e : string) (t : list Notification) :
  (forall x, In x t -> is_active_for d e x = false) -> active_count d e t = 0%nat.
Proof.
  unfold active_count. induction t as [ | x t IH]; intros H; simpl; [ reflexivity | ].
  rewrite (H x) by (left; reflexivity). apply IH. intros y Hy. apply H. right. exact Hy.
Qed.

Lemma normalize_domain_alt (x : string) :
  (if negb (PyStr.has_dot (normalize x)) then normalize x ++ ".com" else normalize x)
  = normalize_domain x.
Proof. unfold normalize_domain. destruct (PyStr.has_dot (normalize x)); reflexivity. Qed.

Lemma normalize_domain_cases (q : string) :
  normalize_domain q =
  if PyStr.has_dot q then PyStr.lower (PyStr.strip q)
  else PyStr.lower (PyStr.strip q) ++ ".com".
Proof.
  unfold normalize_domain, normalize.
  rewrite PyStrFacts.has_dot_lower, PyStrFacts.has_dot_strip. reflexivity.
Qed.

Lemma read_status_object (items : list (string * pyval)) :
  read_status (PDict items) =
  match status_field items with
  | Some status => Ret status
  | None => Raise (AttributeError "get")
  end.
Proof.
  unfold read_status, status_field, field. simpl.
  destruct (Py.dict_lookup "DomainInfo" items) as [info | ]; [ | reflexivity ].
  destruct info; reflexivity.
Qed.

Lemma read_status_not_object (data : pyval) :
  match data with PDict _ => False | _ => True end ->
  exists e, read_status data = Raise e.
Proof.
  unfold read_status. destruct data; simpl; intros H; try contradiction.
  1-4: eexists; reflexivity.
  - destruct (PyStr.contains "DomainInfo" s); eexists; reflexivity.
  - destruct (existsb (fun v => Py.is_str v "DomainInfo") l); eexists; reflexivity.
Qed.

(** On the strings of the model, [x.upper() == "AVAILABLE"] is equality
    up to the case of the letters. *)
Lemma upper_is_AVAILABLE (x : string) :
  Py.codes_eqb (PyStr.upper x) (PyStr.codes "AVAILABLE")
  = equal_ignoring_case x "AVAILABLE".
Proof.
  unfold equal_ignoring_case. apply eq_true_iff_eq.
  rewrite PyStrFacts.codes_eqb_eq, String.eqb_eq.
  apply (PyStrFacts.upper_eq_lower_eq "AVAILABLE"). reflexivity.
Qed.

Lemma answer_of_upper (x : string) :
  answer_of_status (PStr x)
  = Ret (Py.codes_eqb (PyStr.upper x) (PyStr.codes "AVAILABLE")).
Proof.
  unfold answer_of_status. simpl.
  destruct x as [ | c x]; reflexivity.
Qed.

Lemma answer_of_string (x : string) :
  answer_of_status (PStr x) = Ret (equal_ignoring_case x "AVAILABLE").
Proof. rewrite answer_of_upper, upper_is_AVAILABLE. reflexivity. Qed.

Lemma answer_of_other (status : pyval) :
  match status with PStr _ => False | _ => True end ->
  answer_of_status status =
  if Py.truthy status then Raise (AttributeError "upper") else Ret false.
Proof.
  unfold answer_of_status.
  destruct status as [ | [ | ] | n | [ | neg | q] | x | [ | v l] | [ | kv items]];
    simpl; intros H; try contradiction; reflexivity.
Qed.

(* ===================================================================== *)
(** ** Properties of the effectful code *)
(* ===================================================================== *)

Section Properties.

Set Default Proof Using "Type".

(** Drop from the context the calls into the world a goal does not
    mention, so that a statement is generalized over those it uses only. *)
Ltac forget_unused :=
  repeat match goal with
         | call : _ -> _ |- _ => clear call
         end.

Variable World : Type.
Variable requests_get : string -> World -> outcome Response * World.
Variable smtp_session : string -> string -> string -> World -> outcome unit * World.
Variable time_time : World -> pyfloat * World.
Variable int_of_str : string -> option Z.

Local Abbreviation state := (state World).
Local Abbreviation whois := (whoisxml_check requests_get).
Local Abbreviation send := (send_email smtp_session).
Local Abbreviation check := (check_domain requests_get int_of_str).
Local Abbreviation register := (notify time_time).
Local Abbreviation note_step := (process_note requests_get smtp_session).
Local Abbreviation poll := (process_notifications requests_get smtp_session).
Local Abbreviation reachable := (reachable requests_get smtp_session time_time int_of_str).

Lemma whoisxml_check_run (d : string) (s : state) :
  whois d s = (whois_answer (fst (requests_get d (world s))), after_lookup requests_get d s).
Proof.
  unfold whoisxml_check, after_lookup, bind, try_except, http_get, lift, ret, raise.
  destruct (requests_get d (world s)) as [r w]; simpl.
  destruct r as [response | e]; simpl; [ | reflexivity ].
  destruct (json response) as [data | e]; simpl; [ | reflexivity ].
  unfold read_status, answer_of_status.
  destruct (Py.contains "DomainInfo" data) as [[ | ] | e]; simpl; [ | | reflexivity ].
  - destruct (Py.getitem data "DomainInfo") as [info | e]; simpl; [ | reflexivity ].
    destruct (Py.get info "domainAvailability" PNone) as [status | e]; simpl;
      [ | reflexivity ].
    destruct (Py.truthy status); simpl; [ | reflexivity ].
    destruct (Py.upper status); reflexivity.
  - destruct (Py.get data "domainAvailability" PNone) as [status | e]; simpl;
      [ | reflexivity ].
    destruct (Py.truthy status); simpl; [ | reflexivity ].
    destruct (Py.upper status); reflexivity.
Qed.

Lemma whois_fst (d : string) (s : state) :
  fst (whois d s) = whois_answer (fst (requests_get d (world s))).
Proof. rewrite whoisxml_check_run. reflexivity. Qed.

Lemma whois_snd (d : string) (s : state) :
  snd (whois d s) = after_lookup requests_get d s.
Proof. rewrite whoisxml_check_run. reflexivity. Qed.

(* --------------------------------------------------------------------- *)
(** *** The availability check *)

(** C4, as amended. Whatever [requests.get] does for the domain:
    - when the call raises, or the body does not decode, the check raises
      its [RuntimeError] carrying that cause;
    - when the body decodes to an object, the status is the field under
      the DomainInfo object if the object has a DomainInfo entry, the
      top-level field otherwise (a missing field reads as [None]); the
      check answers "available" exactly when the status is a string whose
      [upper()] is AVAILABLE, which for a string of the range U+0000 to
      U+00FF is one equal to AVAILABLE up to the case of its letters; it
      answers "unavailable" for every other string and for a status that
      is missing, null or otherwise false in an [if], and raises its
      [RuntimeError] (cause: no [upper] method) for a status that is true
      in an [if] and is no string;
    - when the body decodes to something that is no object, or its
      DomainInfo entry is no object, the check raises its [RuntimeError]. *)
Theorem whoisxml_check_answers (d : string) (s : state) :
  let r := fst (requests_get d (world s)) in
  let answer := fst (whois d s) in
  (forall e, r = Raise e -> answer = Raise (whois_error e)) /\
  (forall response e,
      r = Ret response -> json response = Raise e ->
      answer = Raise (whois_error e)) /\
  (forall response items status,
      r = Ret response -> json response = Ret (PDict items) ->
      status_field items = Some status ->
      match status with
      | PStr x =>
          answer = Ret (Py.codes_eqb (PyStr.upper x) (PyStr.codes "AVAILABLE")) /\
          Py.codes_eqb (PyStr.upper x) (PyStr.codes "AVAILABLE")
          = equal_ignoring_case x "AVAILABLE"
      | other =>
          answer = if Py.truthy other
                   then Raise (whois_error (AttributeError "upper"))
                   else Ret false
      end) /\
  (forall response data,
      r = Ret response -> json response = Ret data ->
      match data with PDict items => status_field items = None | _ => True end ->
      exists e, answer = Raise (whois_error e)).
Proof.
  intros r answer. subst r answer. rewrite whois_fst.
  repeat split.
  - intros e ->. reflexivity.
  - intros response e -> Hjson. simpl. rewrite Hjson. reflexivity.
  - intros response items status -> Hjson Hstatus. simpl.
    rewrite Hjson, read_status_object, Hstatus.
    destruct status as [ | b | n | f | x | l | kv];
      try (rewrite answer_of_other by exact I;
           match goal with |- context [Py.truthy ?v] => destruct (Py.truthy v) end;
           reflexivity).
    rewrite answer_of_upper. split; [ reflexivity | apply upper_is_AVAILABLE ].
  - intros response data -> Hjson Hshape. simpl. rewrite Hjson.
    destruct data as [ | b | n | f | x | l | items];
      try (match goal with
           | |- context [read_status ?v] =>
               destruct (@read_status_not_object v I) as [e He]; rewrite He
           end; eexists; reflexivity).
    rewrite read_status_object, Hshape. eexists; reflexivity.
Qed.

(** C9, as amended. The answer depends on the decoded body alone: two
    replies with the same body get the same answer whatever their status
    codes. A reply whose body carries no availability field is answered
    "unavailable", with no error raised and whatever its status code,
    when the body is an object whose DomainInfo entry is absent or is an
    object; when the body is no object (null, a string, a number, an
    array) or its DomainInfo entry is no object, the check raises its
    [RuntimeError] instead. *)
Theorem whoisxml_check_ignores_status_code
        (d : string) (s : state) (response : Response) :
  fst (requests_get d (world s)) = Ret response ->
  (forall d' s' response',
      fst (requests_get d' (world s')) = Ret response' ->
      json response' = json response ->
      fst (whois d' s') = fst (whois d s)) /\
  (forall data,
      json response = Ret data ->
      carries_availability data = false ->
      match data with
      | PDict items =>
          match Py.dict_lookup "DomainInfo" items with
          | None | Some (PDict _) => fst (whois d s) = Ret false
          | Some _ => fst (whois d s) = Raise (whois_error (AttributeError "get"))
          end
      | _ => exists e, fst (whois d s) = Raise (whois_error e)
      end).
Proof.
  intros Hr. split.
  - intros d' s' response' Hr' Hjson. rewrite !whois_fst, Hr, Hr'.
    simpl. rewrite Hjson. reflexivity.
  - intros data Hjson Hnone. rewrite whois_fst, Hr. simpl. rewrite Hjson.
    destruct data as [ | b | n | f | x | l | items];
      try (match goal with
           | |- context [read_status ?v] =>
               destruct (@read_status_not_object v I) as [e He]; rewrite He
           end; eexists; reflexivity).
    rewrite read_status_object. unfold status_field, field.
    unfold carries_availability, lacks in Hnone.
    apply orb_false_iff in Hnone. destruct Hnone as [Htop Hinfo].
    destruct (Py.dict_lookup "DomainInfo" items) as [[ | b | n | f | x | l | info] | ];
      try reflexivity.
    + destruct (Py.dict_lookup "domainAvailability" info); [ discriminate | ].
      reflexivity.
    + destruct (Py.dict_lookup "domainAvailability" items); [ discriminate | ].
      reflexivity.
Qed.

(* --------------------------------------------------------------------- *)
(** *** The background checker *)

Local Abbreviation run_note := (after_note requests_get smtp_session).
Local Abbreviation run_notes := (after_notes requests_get smtp_session).
Local Abbreviation delivered_in := (delivered requests_get smtp_session).

Lemma send_email_run (to subject text : string) (s : state) :
  send to subject text s =
  (fst (smtp_session to subject text (world s)),
   record_event (Mail to subject text (fst (smtp_session to subject text (world s))))
                (set_world (snd (smtp_session to subject text (world s))) s)).
Proof.
  unfold send_email. destruct (smtp_session to subject text (world s)); reflexivity.
Qed.

Lemma process_note_run (note : Notification) (s : state) :
  note_step note s = (Ret tt, run_note note s).
Proof.
  unfold process_note, run_note, try_except, bind.
  rewrite whoisxml_check_run.
  destruct (whois_answer (fst (requests_get (domain note) (world s))))
    as [[ | ] | e]; try reflexivity.
  fold (mail_subject (domain note)). fold (mail_body (domain note)).
  rewrite send_email_run. unfold after_mail. simpl.
  destruct (fst (smtp_session (email note) (mail_subject (domain note))
                              (mail_body (domain note))
                              (snd (requests_get (domain note) (world s)))))
    as [[] | e]; reflexivity.
Qed.

Lemma for_each_run (l : list Notification) (s : state) :
  for_each l note_step s = (Ret tt, run_notes l s).
Proof.
  revert s. induction l as [ | note l IH]; intros s; simpl.
  - reflexivity.
  - unfold bind. rewrite process_note_run. apply IH.
Qed.

Lemma poll_run (s : state) :
  poll s = (Ret tt, run_notes (filter active (db s)) s).
Proof.
  unfold process_notifications, bind, query_all. simpl. apply for_each_run.
Qed.

Lemma db_after_note (note : Notification) (s : state) :
  db (run_note note s) = if delivered_in note s then mark (id note) (db s) else db s.
Proof.
  unfold run_note, delivered_in.
  destruct (whois_answer (fst (requests_get (domain note) (world s))))
    as [[ | ] | e]; try reflexivity.
  simpl.
  destruct (fst (smtp_session (email note) (mail_subject (domain note))
                              (mail_body (domain note))
                              (snd (requests_get (domain note) (world s)))));
    reflexivity.
Qed.

Lemma trace_after_note (note : Notification) (s : state) :
  exists block,
    trace (run_note note s) = (trace s ++ block)%list /\ entry_block note block.
Proof.
  unfold run_note, entry_block.
  destruct (whois_answer (fst (requests_get (domain note) (world s))))
    as [[ | ] | e] eqn:Hanswer; simpl.
  - destruct (fst (smtp_session (email note) (mail_subject (domain note))
                                (mail_body (domain note))
                                (snd (requests_get (domain note) (world s)))))
      as [u | e] eqn:Hmail; simpl;
      eexists; (split; [ rewrite <- !app_assoc; simpl; reflexivity | ]);
      do 2 eexists; (split; [ reflexivity | ]);
      rewrite Hanswer; do 2 eexists; reflexivity.
  - eexists. split; [ reflexivity | ].
    do 2 eexists. split; [ reflexivity | ]. rewrite Hanswer. reflexivity.
  - eexists. split; [ rewrite <- !app_assoc; simpl; reflexivity | ].
    do 2 eexists. split; [ reflexivity | ]. rewrite Hanswer. reflexivity.
Qed.

Lemma row_of_after_note (note : Notification) (s : state) (i : Z) :
  i <> id note -> row_of i (db (run_note note s)) = row_of i (db s).
Proof.
  intros Hne. rewrite db_after_note. destruct (delivered_in note s); [ | reflexivity ].
  rewrite row_of_mark. apply Z.eqb_neq in Hne. rewrite Hne. reflexivity.
Qed.

Lemma row_of_after_notes (l : list Notification) (s : state) (i : Z) :
  ~ In i (map id l) -> row_of i (db (run_notes l s)) = row_of i (db s).
Proof.
  revert s. induction l as [ | note l IH]; intros s Hnotin; simpl.
  - reflexivity.
  - simpl in Hnotin. unfold after_notes in IH |- *. simpl.
    rewrite IH by tauto. apply row_of_after_note. intros ->. tauto.
Qed.

Lemma after_notes_app (l1 l2 : list Notification) (s : state) :
  run_notes (l1 ++ l2) s = run_notes l2 (run_notes l1 s).
Proof. apply fold_left_app. Qed.

Lemma ids_after_note (note : Notification) (s : state) :
  map id (db (run_note note s)) = map id (db s).
Proof.
  rewrite db_after_note. destruct (delivered_in note s); [ apply mark_ids | reflexivity ].
Qed.

Lemma ids_after_notes (l : list Notification) (s : state) :
  map id (db (run_notes l s)) = map id (db s).
Proof.
  revert s. induction l as [ | note l IH]; intros s; simpl; [ reflexivity | ].
  unfold after_notes in IH |- *. simpl. rewrite IH. apply ids_after_note.
Qed.

Lemma notified_kept_by_notes (l : list Notification) (s : state) (r : Notification) :
  In r (db s) -> notified r = true -> In r (db (run_notes l s)).
Proof.
  revert s. induction l as [ | note l IH]; intros s HIn Hn; simpl.
  - exact HIn.
  - unfold after_notes in IH |- *. simpl. apply IH; [ | exact Hn ].
    rewrite db_after_note. destruct (delivered_in note s); [ | exact HIn ].
    apply notified_kept_by_mark; assumption.
Qed.

Lemma delivered_calls (note : Notification) (s : state) :
  delivered_in note s = true <->
  fst (whois (domain note) s) = Ret true /\
  fst (send (email note) (mail_subject (domain note)) (mail_body (domain note))
            (snd (whois (domain note) s))) = Ret tt.
Proof.
  rewrite whois_fst, whois_snd, send_email_run. unfold delivered. simpl.
  destruct (whois_answer (fst (requests_get (domain note) (world s))))
    as [[ | ] | e].
  - destruct (fst (smtp_session (email note) (mail_subject (domain note))
                                (mail_body (domain note))
                                (snd (requests_get (domain note) (world s)))))
      as [[] | e]; split; try tauto; try discriminate.
    intros [_ H]. discriminate H.
  - split; [ discriminate | intros [H _]; discriminate H ].
  - split; [ discriminate | intros [H _]; discriminate H ].
Qed.

(** The row of a pending entry after the cycle. *)
Lemma row_after_cycle (s : state) (before after : list Notification)
      (note : Notification) :
  unique_ids (db s) ->
  filter active (db s) = (before ++ note :: after)%list ->
  row_of (id note) (db (snd (poll s))) =
  Some (if delivered_in note (run_notes before s) then set_notified note else note).
Proof.
  intros Hids Hpending. rewrite poll_run. simpl.
  pose proof (filter_ids_NoDup active Hids) as Hnd.
  rewrite Hpending, map_app in Hnd. simpl in Hnd.
  pose proof (NoDup_remove_2 _ _ _ Hnd) as Hnotin.
  assert (HIn : In note (db s)).
  { assert (H : In note (filter active (db s)))
      by (rewrite Hpending; apply in_or_app; right; left; reflexivity).
    apply filter_In in H. tauto. }
  rewrite Hpending, after_notes_app.
  change (run_notes (note :: after) (run_notes before s))
    with (run_notes after (run_note note (run_notes before s))).
  rewrite row_of_after_notes
    by (intros H; apply Hnotin; apply in_or_app; right; exact H).
  rewrite db_after_note.
  assert (Hrow : row_of (id note) (db (run_notes before s)) = Some note).
  { rewrite row_of_after_notes
      by (intros H; apply Hnotin; apply in_or_app; left; exact H).
    apply row_of_In; assumption. }
  destruct (delivered_in note (run_notes before s)).
  - rewrite row_of_mark, Z.eqb_refl, Hrow. reflexivity.
  - exact Hrow.
Qed.

(** C1. In a table with unique keys, take any entry [note] of the pending
    snapshot of a cycle, and the state [s1] in which the loop reaches it.
    After the cycle the row of its key is [note] with at most its flag
    changed, and the flag is true if and only if the lookup of its domain
    made in [s1] answered "available" and [send_email], called next, returned:
    on an "unavailable" answer, a lookup that raises or a send that fails
    the row is unchanged. A row whose flag was true before the cycle is in
    the table unchanged after it, and the cycle adds and removes no row. *)
Theorem poll_cycle_marks_exactly_the_notified (s : state) :
  unique_ids (db s) ->
  (forall before note after,
      filter active (db s) = (before ++ note :: after)%list ->
      let s1 := snd (for_each before note_step s) in
      let looked_up := whois (domain note) s1 in
      let mailed := send (email note) (mail_subject (domain note))
                         (mail_body (domain note)) (snd looked_up) in
      exists row,
        row_of (id note) (db (snd (poll s))) = Some row /\
        (row = note \/ row = set_notified note) /\
        (notified row = true <->
         fst looked_up = Ret true /\ fst mailed = Ret tt)) /\
  (forall r, In r (db s) -> notified r = true -> In r (db (snd (poll s)))) /\
  map id (db (snd (poll s))) = map id (db s).
Proof.
  intros Hids. repeat split.
  - intros before note after Hpending s1 looked_up mailed.
    subst s1 looked_up mailed. rewrite for_each_run. cbn [snd].
    rewrite (@row_after_cycle s before after note Hids Hpending).
    pose proof (delivered_calls note (run_notes before s)) as Hd.
    assert (Hactive : notified note = false).
    { assert (H : In note (filter active (db s)))
        by (rewrite Hpending; apply in_or_app; right; left; reflexivity).
      apply filter_In in H. destruct H as [_ H]. unfold active in H.
      destruct (notified note); [ discriminate | reflexivity ]. }
    destruct (delivered_in note (run_notes before s)).
    + exists (set_notified note).
      split; [ reflexivity | ]. split; [ right; reflexivity | ].
      split; [ intros _; apply Hd; reflexivity | reflexivity ].
    + exists note.
      split; [ reflexivity | ]. split; [ left; reflexivity | ].
      split; [ intros H; congruence | intros H; apply Hd in H; discriminate H ].
  - intros r HIn Hn. rewrite poll_run. simpl.
    apply notified_kept_by_notes; assumption.
  - rewrite poll_run. simpl. apply ids_after_notes.
Qed.

Lemma trace_after_notes (l : list Notification) (s : state) :
  exists blocks,
    trace (run_notes l s) = (trace s ++ List.concat blocks)%list /\
    Forall2 entry_block l blocks.
Proof.
  revert s. induction l as [ | note l IH]; intros s.
  - exists []. simpl. split; [ symmetry; apply app_nil_r | constructor ].
  - destruct (trace_after_note note s) as [block [Hblock Hentry]].
    destruct (IH (run_note note s)) as [blocks [Hblocks Hentries]].
    exists (block :: blocks). split; [ | constructor; assumption ].
    change (run_notes (note :: l) s) with (run_notes l (run_note note s)).
    rewrite Hblocks, Hblock, <- app_assoc. reflexivity.
Qed.

Lemma entry_block_lookup (note : Notification) (block : list event) :
  entry_block note block -> lookup_domains block = [domain note].
Proof.
  intros [r [rest [-> Hrest]]]. unfold lookup_domains. simpl.
  destruct (whois_answer r) as [[ | ] | e].
  - destruct Hrest as [m [line ->]]. reflexivity.
  - subst rest. reflexivity.
  - subst rest. reflexivity.
Qed.

Lemma entry_blocks_lookups (l : list Notification) (blocks : list (list event)) :
  Forall2 entry_block l blocks -> lookup_domains (List.concat blocks) = map domain l.
Proof.
  induction 1 as [ | note block l blocks Hentry _ IH]; [ reflexivity | ].
  simpl. unfold lookup_domains in *. rewrite flat_map_app, IH.
  apply entry_block_lookup in Hentry. unfold lookup_domains in Hentry.
  rewrite Hentry. reflexivity.
Qed.

(** C3. A cycle runs to its end whatever the lookups and the sends do:
    it returns normally, and what it adds to the trace is, for each entry
    of the pending snapshot in order, the block of that entry: its lookup,
    followed by its mail when the answer was "available", whatever
    happened to the entries before it. In particular the lookups made are
    those of the domains of all the pending entries. *)
Theorem poll_cycle_processes_every_entry (s : state) :
  fst (poll s) = Ret tt /\
  exists blocks,
    trace (snd (poll s)) = (trace s ++ List.concat blocks)%list /\
    Forall2 entry_block (filter active (db s)) blocks /\
    lookup_domains (List.concat blocks) = map domain (filter active (db s)).
Proof.
  rewrite poll_run. simpl. split; [ reflexivity | ].
  destruct (trace_after_notes (filter active (db s)) s) as [blocks [Htrace Hentries]].
  exists blocks. repeat split; try assumption.
  apply entry_blocks_lookups. exact Hentries.
Qed.

(* --------------------------------------------------------------------- *)
(** *** Registration *)

Local Abbreviation inserted := (after_insert time_time).
Local Abbreviation fresh_row := (new_row time_time).

Lemma notify_run (data : pyval) (s : state) (d e : string) :
  Py.get data "domain" (PStr EmptyString) = Ret (PStr d) ->
  Py.get data "email" (PStr EmptyString) = Ret (PStr e) ->
  register data s =
  match find (is_active_for (normalize_domain d) (normalize e)) (db s) with
  | Some _ => (Ret already, s)
  | None => (Ret created, inserted (normalize_domain d) (normalize e) s)
  end.
Proof.
  intros Hd He. unfold notify, bind, lift, query_first, ret.
  rewrite Hd. cbn [strip_lower Py.strip]. rewrite He. cbn [strip_lower Py.strip].
  fold (normalize d). fold (normalize e). rewrite normalize_domain_alt.
  destruct (find (is_active_for (normalize_domain d) (normalize e)) (db s));
    [ reflexivity | ].
  unfold add_and_commit, after_insert, new_row.
  destruct (time_time (world s)); reflexivity.
Qed.

(** Whatever the request, the handler leaves the table as it is or
    appends one active row for a pair that had none. *)
Lemma notify_table (data : pyval) (s : state) :
  db (snd (register data s)) = db s \/
  exists d e,
    find (is_active_for d e) (db s) = None /\
    db (snd (register data s)) = (db s ++ [fresh_row d e s])%list.
Proof.
  unfold notify, bind, lift, query_first, ret.
  destruct (Py.get data "domain" (PStr EmptyString)) as [dv | ?]; [ | left; reflexivity ].
  destruct (strip_lower dv) as [d0 | ?]; [ | left; reflexivity ].
  destruct (Py.get data "email" (PStr EmptyString)) as [ev | ?]; [ | left; reflexivity ].
  destruct (strip_lower ev) as [e0 | ?]; [ | left; reflexivity ].
  set (d1 := if negb (PyStr.has_dot d0) then d0 ++ ".com" else d0).
  destruct (find (is_active_for d1 e0) (db s)) eqn:Hfind; [ left; reflexivity | ].
  right. exists d1, e0. split; [ exact Hfind | ].
  unfold add_and_commit, new_row. destruct (time_time (world s)); reflexivity.
Qed.

Lemma one_active_after_notes (l : list Notification) (s : state) :
  one_active_per_pair (db s) -> one_active_per_pair (db (run_notes l s)).
Proof.
  revert s. induction l as [ | note l IH]; intros s Hone; simpl; [ exact Hone | ].
  unfold after_notes in IH |- *. simpl. apply IH.
  rewrite db_after_note. destruct (delivered_in note s); [ | exact Hone ].
  intros d e. pose proof (active_count_mark d e (id note) (db s)).
  specialize (Hone d e). lia.
Qed.

(* --------------------------------------------------------------------- *)
(** *** POST /check *)

Local Abbreviation sift := (filter_available requests_get).
Local Abbreviation looked := (after_lookup requests_get).

Lemma filter_available_run (cands : list string) (m : Z) (acc : list string)
      (s : state) :
  exists out s' more picked,
    sift cands m acc s = (Ret out, s') /\
    db s' = db s /\
    trace s' = (trace s ++ more)%list /\
    (List.length more <= List.length cands)%nat /\
    out = (acc ++ picked)%list /\
    incl picked cands /\
    (forall x, In x picked ->
               exists r, In (Lookup x r) more /\ whois_answer r = Ret true) /\
    Z.of_nat (List.length out) <= Z.max (Z.of_nat (List.length acc) + 1) m.
Proof.
  forget_unused.
  revert acc s. induction cands as [ | cand rest IH]; intros acc s.
  - exists acc, s, [], []. simpl.
    refine (conj eq_refl (conj eq_refl (conj _ (conj _ (conj _ (conj _ (conj _ _))))))).
    + symmetry. apply app_nil_r.
    + lia.
    + symmetry. apply app_nil_r.
    + intros x [].
    + intros x [].
    + lia.
  - cbn [filter_available]. unfold bind, try_except. rewrite whoisxml_check_run.
    set (s1 := looked cand s).
    set (r0 := fst (requests_get cand (world s))).
    assert (Hdb1 : db s1 = db s) by reflexivity.
    assert (Htr1 : trace s1 = (trace s ++ [Lookup cand r0])%list) by reflexivity.
    (* the loop goes on with the list [acc ++ p] *)
    assert (Hcont : forall p,
               incl p [cand] ->
               (forall x, In x p -> whois_answer r0 = Ret true) ->
               Z.of_nat (List.length (acc ++ p)) < m \/
               p = [] ->
               exists out s' more picked,
                 sift rest m (acc ++ p)%list s1 = (Ret out, s') /\
                 db s' = db s /\
                 trace s' = (trace s ++ more)%list /\
                 (List.length more <= List.length (cand :: rest))%nat /\
                 out = (acc ++ picked)%list /\
                 incl picked (cand :: rest) /\
                 (forall x, In x picked ->
                            exists r, In (Lookup x r) more /\ whois_answer r = Ret true) /\
                 Z.of_nat (List.length out) <=
                 Z.max (Z.of_nat (List.length acc) + 1) m).
    { intros p Hincl Hok Hlen.
      destruct (IH (acc ++ p)%list s1)
        as [out [s' [more [picked
             [Hrun [Hdb [Htr [Hmore [Hout [Hpick [Hlooked Hbound]]]]]]]]]]].
      exists out, s', ([Lookup cand r0] ++ more)%list, (p ++ picked)%list.
      refine (conj Hrun (conj _ (conj _ (conj _ (conj _ (conj _ (conj _ _))))))).
      - congruence.
      - rewrite Htr, Htr1, <- app_assoc. reflexivity.
      - simpl. lia.
      - rewrite Hout, <- app_assoc. reflexivity.
      - intros x Hx. apply in_app_or in Hx. destruct Hx as [Hx | Hx].
        + apply Hincl in Hx. destruct Hx as [<- | []]. left. reflexivity.
        + right. apply Hpick. exact Hx.
      - intros x Hx. apply in_app_or in Hx. destruct Hx as [Hx | Hx].
        + exists r0. split; [ | apply (Hok x Hx) ].
          apply Hincl in Hx. destruct Hx as [<- | []]. left. reflexivity.
        + destruct (Hlooked x Hx) as [r [HIn Hr]]. exists r.
          split; [ right; exact HIn | exact Hr ].
      - destruct Hlen as [Hlen | ->].
        + rewrite length_app in Hlen, Hbound. lia.
        + rewrite app_nil_r in Hbound. exact Hbound. }
    destruct (whois_answer r0) as [[ | ] | e] eqn:Hanswer.
    + (* available: appended *)
      destruct (Z.of_nat (List.length (acc ++ [cand])) >=? m) eqn:Hstop;
        unfold ret; cbn iota beta.
      * exists (acc ++ [cand])%list, s1, [Lookup cand r0], [cand].
        refine (conj eq_refl (conj Hdb1 (conj Htr1 (conj _ (conj eq_refl
                  (conj _ (conj _ _))))))).
        -- simpl. lia.
        -- intros x [<- | []]. left. reflexivity.
        -- intros x [<- | []]. exists r0. split; [ left; reflexivity | exact Hanswer ].
        -- rewrite length_app. simpl. lia.
      * apply (Hcont [cand]).
        -- apply incl_refl.
        -- intros x _. reflexivity.
        -- left. rewrite Z.geb_leb in Hstop. apply Z.leb_gt in Hstop. exact Hstop.
    + (* unavailable *)
      destruct (Z.of_nat (List.length acc) >=? m) eqn:Hstop;
        unfold ret; cbn iota beta.
      * exists acc, s1, [Lookup cand r0], [].
        refine (conj eq_refl (conj Hdb1 (conj Htr1 (conj _ (conj _
                  (conj _ (conj _ _))))))).
        -- simpl. lia.
        -- symmetry. apply app_nil_r.
        -- intros x [].
        -- intros x [].
        -- lia.
      * specialize (Hcont []). rewrite app_nil_r in Hcont. apply Hcont.
        -- intros x [].
        -- intros x [].
        -- right. reflexivity.
    + (* the lookup raised: continue *)
      unfold ret. cbn iota beta.
      specialize (Hcont []). rewrite app_nil_r in Hcont. apply Hcont.
      * intros x [].
      * intros x [].
      * right. reflexivity.
Qed.

Lemma check_domain_run (data : pyval) (s : state) (q : string) (v : pyval) (m : Z) :
  Py.get data "query" (PStr EmptyString) = Ret (PStr q) ->
  Py.get data "max_suggestions" (PInt 6) = Ret v ->
  py_int int_of_str v = Ret m ->
  check data s =
  match whois_answer (fst (requests_get (normalize_domain q) (world s))) with
  | Raise e => (Ret (BError e, 500), looked (normalize_domain q) s)
  | Ret available =>
      match sift (generate_suggestions (normalize q) m) m []
                 (looked (normalize_domain q) s) with
      | (Ret suggestions, s') =>
          (Ret (BCheck (normalize_domain q) available suggestions, 200), s')
      | (Raise e, s') => (Raise e, s')
      end
  end.
Proof.
  intros Hq Hv Hm. unfold check_domain, bind, lift, try_except, ret.
  rewrite Hq. cbn [strip_lower Py.strip]. rewrite Hv, Hm.
  fold (normalize q). fold (normalize_domain q).
  rewrite whoisxml_check_run.
  destruct (whois_answer (fst (requests_get (normalize_domain q) (world s))));
    [ | reflexivity ].
  destruct (sift (generate_suggestions (normalize q) m) m []
                 (looked (normalize_domain q) s)) as [[out | e] s']; reflexivity.
Qed.

Lemma check_domain_table (data : pyval) (s : state) : db (snd (check data s)) = db s.
Proof.
  unfold check_domain, bind, lift, try_except, ret.
  destruct (Py.get data "query" (PStr EmptyString)) as [qv | ?]; [ | reflexivity ].
  destruct (strip_lower qv) as [q0 | ?]; [ | reflexivity ].
  destruct (Py.get data "max_suggestions" (PInt 6)) as [mv | ?]; [ | reflexivity ].
  destruct (py_int int_of_str mv) as [m | ?]; [ | reflexivity ].
  rewrite whoisxml_check_run.
  destruct (whois_answer _); [ | reflexivity ].
  match goal with
  | |- context [filter_available requests_get ?c ?m ?a ?s0] =>
      destruct (filter_available_run c m a s0)
        as [out [s' [more [picked [Hrun [Hdb _]]]]]];
      rewrite Hrun
  end.
  simpl. rewrite Hdb. reflexivity.
Qed.

(* --------------------------------------------------------------------- *)
(** *** The table of a reachable state *)

Lemma fresh_row_active (d e : string) (s : state) :
  is_active_for d e (fresh_row d e s) = true.
Proof. unfold is_active_for, new_row. simpl. rewrite !String.eqb_refl. reflexivity. Qed.

Lemma reachable_table (s : state) :
  reachable s -> unique_ids (db s) /\ one_active_per_pair (db s).
Proof.
  induction 1 as [w tr | s data _ IH | s data _ IH | s _ IH].
  - simpl. split; [ apply NoDup_nil | intros d e; unfold active_count; simpl; lia ].
  - rewrite check_domain_table. exact IH.
  - destruct IH as [Hids Hone].
    destruct (notify_table data s) as [-> | [d [e [Hfind ->]]]]; [ tauto | ].
    split.
    + apply unique_ids_insert; [ exact Hids | reflexivity ].
    + apply (@one_active_insert (db s) d e); try assumption; reflexivity.
  - destruct IH as [Hids Hone]. rewrite poll_run. simpl. split.
    + unfold unique_ids. rewrite ids_after_notes. exact Hids.
    + apply one_active_after_notes. exact Hone.
Qed.

(** C2. Two calls of /notify in a row with the same request (its domain
    and email are strings, or absent): in every state the second call
    answers "already registered" with status 200 and leaves the whole
    state, table included, as the first call left it, with at least one
    active row for the pair; in every state the program reaches, the
    active row for the pair is then exactly one. *)
Theorem notify_twice_registers_once (s : state) (data : pyval) (d e : string) :
  Py.get data "domain" (PStr EmptyString) = Ret (PStr d) ->
  Py.get data "email" (PStr EmptyString) = Ret (PStr e) ->
  let s1 := snd (register data s) in
  register data s1 = (Ret (BMessage "Already registered for this domain", 200), s1) /\
  (1 <= active_count (normalize_domain d) (normalize e) (db s1))%nat /\
  (reachable s ->
   active_count (normalize_domain d) (normalize e) (db s1) = 1%nat).
Proof.
  intros Hd He s1. subst s1.
  rewrite (@notify_run data s d e Hd He).
  destruct (find (is_active_for (normalize_domain d) (normalize e)) (db s))
    as [r | ] eqn:Hfind; cbn [snd].
  - rewrite (@notify_run data s d e Hd He), Hfind. split; [ reflexivity | ].
    apply find_some_count in Hfind. split; [ exact Hfind | ].
    intros Hreach. apply reachable_table in Hreach. destruct Hreach as [_ Hone].
    specialize (Hone (normalize_domain d) (normalize e)). lia.
  - assert (Hcount : active_count (normalize_domain d) (normalize e)
                       (db (inserted (normalize_domain d) (normalize e) s)) = 1%nat).
    { unfold after_insert. simpl. rewrite active_count_app.
      rewrite (@find_none_count _ _ _ Hfind). unfold active_count. simpl.
      rewrite fresh_row_active. reflexivity. }
    rewrite (@notify_run data _ d e Hd He).
    destruct (find (is_active_for (normalize_domain d) (normalize e))
                   (db (inserted (normalize_domain d) (normalize e) s)))
      eqn:Hfound.
    + split; [ reflexivity | ]. rewrite Hcount. split; [ lia | reflexivity ].
    + apply find_none_count in Hfound. rewrite Hcount in Hfound. discriminate.
Qed.

Lemma rows_after_notes (l : list Notification) (s : state) (x : Notification) :
  In x (db (run_notes l s)) ->
  exists x0, In x0 (db s) /\ (x = x0 \/ x = set_notified x0).
Proof.
  revert s. induction l as [ | note l IH]; intros s HIn.
  - exists x. split; [ exact HIn | left; reflexivity ].
  - change (run_notes (note :: l) s) with (run_notes l (run_note note s)) in HIn.
    apply IH in HIn. destruct HIn as [x1 [HIn1 Hx]].
    rewrite db_after_note in HIn1. destruct (delivered_in note s).
    + unfold mark in HIn1. apply in_map_iff in HIn1.
      destruct HIn1 as [x0 [Hx1 HIn0]]. exists x0. split; [ exact HIn0 | ].
      destruct (id x0 =? id note); subst x1.
      * right. destruct Hx as [-> | ->]; [ reflexivity | ].
        destruct x0; reflexivity.
      * exact Hx.
    + exists x1. tauto.
Qed.

(** C7. In a reachable state take an active row of a pair, and a cycle
    that marks it notified. A /notify for the same pair right after that
    cycle is no duplicate: it answers "registered" with status 201 and
    appends one row for the pair with the flag false, so the notified row
    and the new active row stand side by side in the table. *)
Theorem notify_after_notified_creates_row
        (s : state) (data : pyval) (d e : string) (r : Notification) :
  reachable s ->
  In r (db s) ->
  notified r = false ->
  domain r = normalize_domain d ->
  email r = normalize e ->
  Py.get data "domain" (PStr EmptyString) = Ret (PStr d) ->
  Py.get data "email" (PStr EmptyString) = Ret (PStr e) ->
  let s1 := snd (poll s) in
  row_of (id r) (db s1) = Some (set_notified r) ->
  fst (register data s1) = Ret (BMessage "Notification registered", 201) /\
  exists row,
    db (snd (register data s1)) = (db s1 ++ [row])%list /\
    domain row = normalize_domain d /\
    email row = normalize e /\
    notified row = false /\
    In (set_notified r) (db (snd (register data s1))).
Proof.
  intros Hreach HIn Hactive Hdom Hmail Hd He s1 Hmarked.
  apply reachable_table in Hreach. destruct Hreach as [Hids Hone].
  assert (Hids1 : unique_ids (db s1)).
  { subst s1. rewrite poll_run. simpl. unfold unique_ids.
    rewrite ids_after_notes. exact Hids. }
  assert (Hr : is_active_for (normalize_domain d) (normalize e) r = true).
  { apply is_active_for_pair. tauto. }
  assert (Hnone : find (is_active_for (normalize_domain d) (normalize e)) (db s1) = None).
  { apply count_none_find. apply count_zero. intros x Hx.
    destruct (is_active_for (normalize_domain d) (normalize e) x) eqn:Hax;
      [ exfalso | reflexivity ].
    assert (Hx1 := Hx). subst s1. rewrite poll_run in Hx. simpl in Hx.
    apply rows_after_notes in Hx. destruct Hx as [x0 [HIn0 [-> | ->]]].
    - assert (x0 = r) as ->.
      { apply (@short_list_unique _ (filter (is_active_for (normalize_domain d)
                                                         (normalize e)) (db s))).
        - apply Hone.
        - apply filter_In. tauto.
        - apply filter_In. tauto. }
      rewrite (@row_of_In _ _ Hids1 Hx1) in Hmarked.
      injection Hmarked as Hsame. rewrite Hsame in Hactive.
      simpl in Hactive. discriminate.
    - unfold is_active_for in Hax. simpl in Hax.
      rewrite andb_false_r in Hax. discriminate. }
  rewrite (@notify_run data s1 d e Hd He), Hnone. cbn [fst snd].
  split; [ reflexivity | ].
  exists (fresh_row (normalize_domain d) (normalize e) s1).
  unfold after_insert. simpl. repeat split.
  apply in_or_app. left.
  unfold row_of in Hmarked. apply find_some in Hmarked. tauto.
Qed.

(* --------------------------------------------------------------------- *)
(** *** The replies of the handlers *)

Lemma notify_row (data : pyval) (s : state) (d e : string) :
  Py.get data "domain" (PStr EmptyString) = Ret (PStr d) ->
  Py.get data "email" (PStr EmptyString) = Ret (PStr e) ->
  exists row,
    In row (db (snd (register data s))) /\
    domain row = normalize_domain d /\
    email row = normalize e /\
    notified row = false /\
    (register data s = (Ret already, s) \/
     register data s = (Ret created, inserted (normalize_domain d) (normalize e) s) /\
     db (snd (register data s)) = (db s ++ [row])%list).
Proof.
  forget_unused.
  intros Hd He. rewrite (@notify_run data s d e Hd He).
  destruct (find (is_active_for (normalize_domain d) (normalize e)) (db s))
    as [r | ] eqn:Hfind.
  - exists r. apply find_some in Hfind. destruct Hfind as [HIn Hr].
    apply is_active_for_pair in Hr. simpl. tauto.
  - exists (fresh_row (normalize_domain d) (normalize e) s).
    unfold after_insert. simpl. repeat split.
    + apply in_or_app. right. left. reflexivity.
    + right. split; reflexivity.
Qed.

(** C6, as amended. Both handlers normalize the domain they are given in
    the same way: white space is stripped from both ends, the result is
    lower-cased, and ".com" is appended when it has no dot. For a request
    whose query is the string [q] (and whose max_suggestions converts),
    the first lookup of /check is on that normalized domain; for a request
    whose domain is [q], the row /notify registers or finds is of that
    normalized domain. In particular for [q] without a dot the domain
    looked up is the stripped, lower-cased [q] followed by ".com". *)
Theorem handlers_normalize_alike (q : string) :
  (forall data s v m,
      Py.get data "query" (PStr EmptyString) = Ret (PStr q) ->
      Py.get data "max_suggestions" (PInt 6) = Ret v ->
      py_int int_of_str v = Ret m ->
      exists r rest,
        trace (snd (check data s)) =
        (trace s ++ Lookup (normalize_domain q) r :: rest)%list) /\
  (forall data s e,
      Py.get data "domain" (PStr EmptyString) = Ret (PStr q) ->
      Py.get data "email" (PStr EmptyString) = Ret (PStr e) ->
      exists row,
        In row (db (snd (register data s))) /\
        domain row = normalize_domain q /\
        email row = normalize e /\
        notified row = false) /\
  normalize_domain q =
  (if PyStr.has_dot q then PyStr.lower (PyStr.strip q)
   else PyStr.lower (PyStr.strip q) ++ ".com").
Proof.
  forget_unused.
  split; [ | split; [ | apply normalize_domain_cases ] ].
  - intros data s v m Hq Hv Hm.
    rewrite (@check_domain_run data s q v m Hq Hv Hm).
    destruct (whois_answer (fst (requests_get (normalize_domain q) (world s)))).
    + destruct (filter_available_run (generate_suggestions (normalize q) m) m []
                                     (looked (normalize_domain q) s))
        as [out [s' [more [picked [Hrun [_ [Htr _]]]]]]].
      rewrite Hrun. simpl. rewrite Htr. simpl.
      rewrite <- app_assoc. do 2 eexists. reflexivity.
    + simpl. do 2 eexists. reflexivity.
  - intros data s e Hd He.
    destruct (@notify_row data s q e Hd He) as [row H]. exists row. tauto.
Qed.

(** C8, as amended. For a request whose query is a string and whose
    max_suggestions (6 when absent) converts to the integer [m]: when the
    primary lookup raises, the reply is status 500 with the error as body,
    and nothing is looked up after it; when it answers, the reply is
    status 200 with the normalized domain, the answer and a list of
    suggestions, whatever the lookups of the candidates do: each
    suggestion is a generated candidate whose lookup, made after the
    primary one, answered "available", so that a candidate whose lookup
    raises is left out and the failure goes no further. The list has at
    most [m] entries when [m] is not negative, and at most one entry when
    it is. *)
Theorem check_domain_replies
        (data : pyval) (s : state) (q : string) (v : pyval) (m : Z) :
  Py.get data "query" (PStr EmptyString) = Ret (PStr q) ->
  Py.get data "max_suggestions" (PInt 6) = Ret v ->
  py_int int_of_str v = Ret m ->
  match fst (whois (normalize_domain q) s) with
  | Raise e =>
      check data s = (Ret (BError e, 500), snd (whois (normalize_domain q) s))
  | Ret available =>
      exists suggestions s' more,
        check data s =
        (Ret (BCheck (normalize_domain q) available suggestions, 200), s') /\
        trace s' = (trace (snd (whois (normalize_domain q) s)) ++ more)%list /\
        incl suggestions (generate_suggestions (normalize q) m) /\
        (forall x, In x suggestions ->
                   exists r, In (Lookup x r) more /\
                             whois_answer r = Ret true) /\
        (0 <= m -> Z.of_nat (List.length suggestions) <= m) /\
        (m < 0 -> (List.length suggestions <= 1)%nat)
  end /\
  (forall items,
      data = PDict items -> Py.dict_lookup "max_suggestions" items = None -> m = 6).
Proof.
  forget_unused.
  intros Hq Hv Hm. split.
  - rewrite (@check_domain_run data s q v m Hq Hv Hm), whois_fst, whois_snd.
    destruct (whois_answer (fst (requests_get (normalize_domain q) (world s))));
      [ | reflexivity ].
    destruct (filter_available_run (generate_suggestions (normalize q) m) m []
                                   (looked (normalize_domain q) s))
      as [out [s' [more [picked
           [Hrun [_ [Htr [_ [Hout [Hpick [Hlooked Hbound]]]]]]]]]]].
    rewrite Hrun. exists out, s', more. simpl in Hout, Hbound. subst picked.
    split; [ reflexivity | ]. split; [ exact Htr | ].
    split; [ exact Hpick | ]. split; [ exact Hlooked | ].
    assert (Hzero : m = 0 -> out = []).
    { intros ->. unfold generate_suggestions, slice_to in Hpick. simpl in Hpick.
      destruct out as [ | x out]; [ reflexivity | ].
      destruct (Hpick x). left. reflexivity. }
    split.
    + intros Hm0. destruct (Z.eq_dec m 0) as [H0 | Hne].
      * rewrite (Hzero H0). simpl. lia.
      * lia.
    + intros Hneg. lia.
  - intros items -> Hnone. simpl in Hv. rewrite Hnone in Hv.
    injection Hv as <-. simpl in Hm. injection Hm as <-. reflexivity.
Qed.

(* --------------------------------------------------------------------- *)
(** *** Further properties of the table and of the lookups *)

(** X1. In every state the program reaches from an empty table, the
    handlers and the background job running one at a time, the keys of the
    rows are distinct and each (domain, email) pair has at most one active
    row. *)
Theorem reachable_table_is_consistent (s : state) :
  reachable s -> unique_ids (db s) /\ one_active_per_pair (db s).
Proof. intros Hreach. apply reachable_table. exact Hreach. Qed.

(** X2. [whoisxml_check] makes one call to the endpoint, whether it
    answers or raises, and touches nothing else: the trace gains the one
    lookup of the domain, the table is unchanged. *)
Theorem whoisxml_check_makes_one_call (d : string) (s : state) :
  db (snd (whois d s)) = db s /\
  trace (snd (whois d s)) =
  (trace s ++ [Lookup d (fst (requests_get d (world s)))])%list.
Proof. rewrite whois_snd. split; reflexivity. Qed.

(** X3. /check never changes the table, whatever the request and whatever
    the lookups do. *)
Theorem check_domain_keeps_table (data : pyval) (s : state) :
  db (snd (check data s)) = db s.
Proof. apply check_domain_table. Qed.

(** X4. For a request with a positive cap [m], /check makes at most
    [1 + 3 * m] calls: the primary lookup and one lookup for each of the at
    most [3 * m] candidates. *)
Theorem check_domain_lookup_budget
        (data : pyval) (s : state) (q : string) (v : pyval) (m : Z) :
  Py.get data "query" (PStr EmptyString) = Ret (PStr q) ->
  Py.get data "max_suggestions" (PInt 6) = Ret v ->
  py_int int_of_str v = Ret m ->
  0 < m ->
  exists new,
    trace (snd (check data s)) = (trace s ++ new)%list /\
    Z.of_nat (List.length new) <= 1 + 3 * m.
Proof.
  forget_unused.
  intros Hq Hv Hm Hpos. rewrite (@check_domain_run data s q v m Hq Hv Hm).
  destruct (whois_answer (fst (requests_get (normalize_domain q) (world s)))).
  - destruct (filter_available_run (generate_suggestions (normalize q) m) m []
                                   (looked (normalize_domain q) s))
      as [out [s' [more [picked [Hrun [_ [Htr [Hmore _]]]]]]]].
    rewrite Hrun. cbn [snd]. rewrite Htr.
    change (trace (looked (normalize_domain q) s))
      with (trace s ++ [Lookup (normalize_domain q)
                               (fst (requests_get (normalize_domain q) (world s)))])%list.
    rewrite <- app_assoc.
    eexists. split; [ reflexivity | ].
    pose proof (@SuggestionFacts.generate_suggestions_length (normalize q) m
                  ltac:(lia)).
    rewrite length_app. cbn [List.length]. lia.
  - cbn [snd]. eexists. split; [ reflexivity | ]. cbn [List.length]. lia.
Qed.

End Properties.

(* ===================================================================== *)
(** ** Runs of the model *)
(* ===================================================================== *)

Example split_examples :
  PyStr.split PyStr.dot "a.b.c" = ["a"; "b"; "c"] /\
  PyStr.split PyStr.dot ".a." = [EmptyString; "a"; EmptyString] /\
  PyStr.split PyStr.dot EmptyString = [EmptyString].
Proof. repeat split. Qed.

Example strip_lower_example :
  normalize "  Foo Bar " = "foo bar" /\ normalize_domain " Example.ORG" = "example.org".
Proof. split; reflexivity. Qed.

Example int_of_str_examples :
  Demo.int_of_str " 12 " = Some 12 /\ Demo.int_of_str "-1_000" = Some (-1000) /\
  Demo.int_of_str "1__0" = None /\ Demo.int_of_str "six" = None /\
  Demo.int_of_str (String (ascii_of_N 160) "7") = Some 7 /\
  Demo.int_of_str (String (ascii_of_N 28) "7") = None /\
  PyStr.strip (String (ascii_of_N 28) "7") = "7".
Proof. repeat split. Qed.

Example suggestions_of_pro :
  generate_suggestions "pro" 20 =
  ["pro.com"; "pro.net"; "pro.org"; "pro.io"; "pro.co"; "pro.ai"; "pro.xyz";
   "pro.tech"; "pro.dev"; "pro.app"; "pro.tv"; "pro.me"; "pro.link"; "pro.shop";
   "getpro.com"; "trypro.com"; "thepro.com"; "mypro.com"; "usepro.com"; "gopro.com";
   "heypro.com"; "joinpro.com"; "ispro.com"; "dopro.com"; "propro.com";
   "ultrapro.com"; "proapp.com"; "prohq.com"; "prospace.com"; "proonline.com";
   "prosite.com"; "prohub.com"; "prolabs.com"; "proio.com"; "prodev.com";
   "protv.com"; "procloud.com"; "pro.hub.io"; "pro.labs.io"; "pro.dev.io";
   "pro.app.io"; "pro.online.io"; "proai.com"].
Proof. reflexivity. Qed.

(** The two shapes of a reply, and the cases in which no answer is drawn
    from it. *)
Example whoisxml_check_examples :
  let check table := fst (whoisxml_check (Demo.endpoint table) "example.com" Demo.start) in
  check (fun _ => Demo.reply 200 (Demo.nested (PStr "AVAILABLE"))) = Ret true /\
  check (fun _ => Demo.reply 200 (Demo.flat (PStr "Available"))) = Ret true /\
  check (fun _ => Demo.reply 200 (Demo.flat (PStr "UNAVAILABLE"))) = Ret false /\
  check (fun _ => Demo.reply 200 (PDict [])) = Ret false /\
  check (fun _ => Demo.reply 200 (Demo.flat PNone)) = Ret false /\
  check (fun _ => Demo.reply 200 (Demo.flat (PInt 0))) = Ret false /\
  check Demo.nested_without_field = Ret false /\
  check Demo.unreachable = Raise (whois_error (External "ConnectionError")) /\
  check (fun _ => Ret {| status_code := 200; json := Raise (External "JSONDecodeError") |})
  = Raise (whois_error (External "JSONDecodeError")) /\
  check (fun _ => Demo.reply 200 (PList [])) = Raise (whois_error (AttributeError "get")) /\
  check (fun _ => Demo.reply 200 (Demo.flat (PInt 1)))
  = Raise (whois_error (AttributeError "upper")).
Proof. repeat split. Qed.

(** A registration for a taken domain is stored with the flag false; the
    next cycle finds the domain available, sends one mail and sets the
    flag. *)
Example register_then_notify :
  let s1 := snd (notify Demo.clock Demo.wants_example_xyz Demo.start) in
  let s2 := snd (process_notifications (Demo.endpoint Demo.only_example_xyz)
                                       (Demo.relay Demo.anyone) s1) in
  fst (notify Demo.clock Demo.wants_example_xyz Demo.start)
  = Ret (BMessage "Notification registered", 201) /\
  db s1 = [Demo.row 1 "example.xyz" "a@b.com" false] /\
  db s2 = [Demo.row 1 "example.xyz" "a@b.com" true] /\
  trace s2 =
  [Lookup "example.xyz" (Demo.reply 200 (Demo.flat (PStr "AVAILABLE")));
   Mail "a@b.com" "Domain Available: example.xyz"
        "Good news! The domain example.xyz is now available." (Ret tt);
   Printed (EmailSent "a@b.com")].
Proof. repeat split. Qed.

(** When the relay refuses the mail, or the endpoint cannot be reached,
    the rows stay pending and the cycle goes on to the next entry. *)
Example failures_leave_rows_pending :
  let refused := snd (process_notifications (Demo.endpoint Demo.everything_available)
                                            (Demo.relay Demo.nobody) Demo.three_rows) in
  let down := snd (process_notifications (Demo.endpoint Demo.unreachable)
                                         (Demo.relay Demo.anyone) Demo.three_rows) in
  db refused = db Demo.three_rows /\
  db down = db Demo.three_rows /\
  lookup_domains (trace refused) = ["free.xyz"; "taken.com"] /\
  lookup_domains (trace down) = ["free.xyz"; "taken.com"].
Proof. repeat split. Qed.

(** A duplicate /notify leaves the state as it is. *)
Example duplicate_notify :
  notify Demo.clock Demo.wants_free_xyz Demo.registered
  = (Ret (BMessage "Already registered for this domain", 200), Demo.registered).
Proof. reflexivity. Qed.

(** /check on an available name; a candidate whose lookup times out is
    skipped; an unreachable endpoint gives status 500. *)
Example check_domain_examples :
  fst (check_domain (Demo.endpoint Demo.everything_available) Demo.int_of_str
                    (Demo.request [("query", PStr "foo"); ("max_suggestions", PInt 2)])
                    Demo.start)
  = Ret (BCheck "foo.com" true ["foo.com"; "foo.net"], 200) /\
  fst (check_domain (Demo.endpoint Demo.foo_net_times_out) Demo.int_of_str
                    (Demo.request [("query", PStr "foo"); ("max_suggestions", PInt 2)])
                    Demo.start)
  = Ret (BCheck "foo.com" true ["foo.com"; "foo.org"], 200) /\
  check_domain (Demo.endpoint Demo.unreachable) Demo.int_of_str
               (Demo.request [("query", PStr "foo")]) Demo.start
  = (Ret (BError (whois_error (External "ConnectionError")), 500),
     {| db := []; world := 1%nat;
        trace := [Lookup "foo.com" (Raise (External "ConnectionError"))] |}) /\
  fst (check_domain (Demo.endpoint Demo.everything_available) Demo.int_of_str
                    (Demo.request [("query", PStr "foo"); ("max_suggestions", PStr "many")])
                    Demo.start)
  = Raise ValueError.
Proof. repeat split. Qed.

(* ===================================================================== *)
(** ** The properties at concrete inputs *)
(* ===================================================================== *)

Ltac distinct_keys :=
  unfold unique_ids; simpl;
  repeat (constructor; [ simpl; intuition discriminate | ]); constructor.

(** C4, as stated, fails: a status that is the JSON value [true] is not
    AVAILABLE, and the check does not answer "unavailable" for it, it
    raises. *)
Lemma whoisxml_check_raises_on_true_status :
  fst (whoisxml_check (Demo.endpoint Demo.status_is_true) "example.com" Demo.start)
  = Raise (whois_error (AttributeError "upper")) /\
  fst (whoisxml_check (Demo.endpoint Demo.status_is_true) "example.com" Demo.start)
  <> Ret false.
Proof. split; [ reflexivity | discriminate ]. Qed.

(** C9, as stated, fails: an error reply whose body is a JSON string
    parses and carries no availability field, and the check does not
    answer "unavailable" for it, it raises; so it does for a body whose
    DomainInfo entry is [null]. *)
Lemma whoisxml_check_raises_on_text_body :
  Demo.quota_text "example.com" = Demo.reply 429 (PStr "quota exceeded") /\
  carries_availability (PStr "quota exceeded") = false /\
  fst (whoisxml_check (Demo.endpoint Demo.quota_text) "example.com" Demo.start)
  = Raise (whois_error (AttributeError "get")) /\
  Demo.null_domain_info "example.com"
  = Demo.reply 200 (PDict [("DomainInfo", PNone)]) /\
  carries_availability (PDict [("DomainInfo", PNone)]) = false /\
  fst (whoisxml_check (Demo.endpoint Demo.null_domain_info) "example.com" Demo.start)
  = Raise (whois_error (AttributeError "get")).
Proof. repeat split. Qed.

(** C9 at a quota-exceeded reply with status 429. *)
Lemma whoisxml_check_ignores_status_code_witness :
  fst (Demo.endpoint Demo.quota_exceeded "example.com" (world Demo.start))
  = Demo.quota_exceeded "example.com" /\
  fst (whoisxml_check (Demo.endpoint Demo.quota_exceeded) "example.com" Demo.start)
  = Ret false.
Proof.
  split; [ reflexivity | ].
  exact (proj2 (@whoisxml_check_ignores_status_code
                  Demo.World (Demo.endpoint Demo.quota_exceeded)
                  "example.com" Demo.start _ eq_refl)
               (PDict [("code", PInt 429); ("messages", PStr "quota exceeded")])
               eq_refl eq_refl).
Defined.

(** C5 at the query "Foo.io" and the cap 2. *)
Lemma generate_suggestions_witness :
  0 < 2 /\
  generate_suggestions "Foo.io" 2 =
  ["foo.com"; "foo.net"; "foo.org"; "foo.io"; "foo.co"; "foo.ai"].
Proof.
  split; [ lia | ].
  rewrite (proj1 (proj2 (proj2
             (@SuggestionFacts.generate_suggestions_bounded_unique_ordered
                "Foo.io" 2 ltac:(lia))))).
  reflexivity.
Defined.

(** C1 at a table of two pending rows and one notified row, when only the
    domain of the first can be registered. *)
Lemma poll_cycle_marks_witness :
  unique_ids (db Demo.three_rows) /\
  exists row,
    row_of 1 (db (snd (process_notifications
                         (Demo.endpoint Demo.only_free_xyz) (Demo.relay Demo.anyone)
                         Demo.three_rows))) = Some row /\
    notified row = true.
Proof.
  assert (Hids : unique_ids (db Demo.three_rows)) by distinct_keys.
  split; [ exact Hids | ].
  destruct (@poll_cycle_marks_exactly_the_notified
              Demo.World (Demo.endpoint Demo.only_free_xyz) (Demo.relay Demo.anyone)
              Demo.three_rows Hids) as [Hrows _].
  destruct (Hrows [] (Demo.row 1 "free.xyz" "a@b.com" false)
                  [Demo.row 2 "taken.com" "c@d.com" false] eq_refl)
    as [row [Hrow [_ Hflag]]].
  exists row. split; [ exact Hrow | ].
  apply Hflag. split; reflexivity.
Defined.

(** C2 at a new database. *)
Lemma notify_twice_witness :
  notify Demo.clock Demo.wants_free_xyz Demo.registered
  = (Ret (BMessage "Already registered for this domain", 200), Demo.registered) /\
  active_count "free.xyz" "a@b.com" (db Demo.registered) = 1%nat.
Proof.
  destruct (@notify_twice_registers_once
              Demo.World (Demo.endpoint Demo.nothing_available)
              (Demo.relay Demo.anyone) Demo.clock Demo.int_of_str Demo.start
              Demo.wants_free_xyz " Free.XYZ " "A@b.com" eq_refl eq_refl)
    as [Hsecond [_ Hone]].
  split; [ exact Hsecond | ].
  apply Hone. apply reach_start.
Defined.

(** C7 at a registration in a new database followed by a cycle that finds
    the domain available and mails. *)
Lemma notify_after_notified_witness :
  db Demo.registered = [Demo.free_xyz_row] /\
  row_of 1 (db Demo.notified_once) = Some (set_notified Demo.free_xyz_row) /\
  fst (notify Demo.clock Demo.wants_free_xyz Demo.notified_once)
  = Ret (BMessage "Notification registered", 201) /\
  exists row,
    db (snd (notify Demo.clock Demo.wants_free_xyz Demo.notified_once))
    = (db Demo.notified_once ++ [row])%list /\
    domain row = "free.xyz" /\
    email row = "a@b.com" /\
    notified row = false /\
    In (set_notified Demo.free_xyz_row)
       (db (snd (notify Demo.clock Demo.wants_free_xyz Demo.notified_once))).
Proof.
  split; [ reflexivity | ]. split; [ reflexivity | ].
  refine (@notify_after_notified_creates_row
            Demo.World (Demo.endpoint Demo.only_free_xyz) (Demo.relay Demo.anyone)
            Demo.clock Demo.int_of_str Demo.registered Demo.wants_free_xyz
            " Free.XYZ " "A@b.com" Demo.free_xyz_row _ _ _ _ _ _ _ _).
  - apply reach_notify. apply reach_start.
  - left. reflexivity.
  - reflexivity.
  - reflexivity.
  - reflexivity.
  - reflexivity.
  - reflexivity.
  - reflexivity.
Defined.

(** C6, as stated, fails: the query " foo" has no dot, and /check does not
    look up its lower case followed by ".com", which begins with a space;
    it looks up "foo.com". *)
Lemma check_domain_strips_the_query :
  PyStr.has_dot " foo" = false /\
  (PyStr.lower " foo" ++ ".com") = " foo.com" /\
  " foo.com" <> "foo.com" /\
  hd_error (lookup_domains
              (trace (snd (check_domain (Demo.endpoint Demo.nothing_available)
                                        Demo.int_of_str
                                        (Demo.request [("query", PStr " foo")])
                                        Demo.start))))
  = Some "foo.com".
Proof. repeat split. discriminate. Qed.

(** C8, as stated, fails: with max_suggestions -1 and every domain
    available the reply carries one suggestion, more than the cap. *)
Lemma check_domain_negative_cap :
  fst (check_domain (Demo.endpoint Demo.everything_available) Demo.int_of_str
                    (Demo.request [("query", PStr "foo"); ("max_suggestions", PInt (-1))])
                    Demo.start)
  = Ret (BCheck "foo.com" true ["foo.com"], 200) /\
  -1 < Z.of_nat (List.length ["foo.com"]).
Proof. split; [ reflexivity | simpl; lia ]. Qed.

(** C8 at a request without max_suggestions, when every domain is
    available. *)
Lemma check_domain_replies_witness :
  exists suggestions s',
    check_domain (Demo.endpoint Demo.everything_available) Demo.int_of_str
                 (Demo.request [("query", PStr "Foo")]) Demo.start
    = (Ret (BCheck "foo.com" true suggestions, 200), s') /\
    Z.of_nat (List.length suggestions) <= 6.
Proof.
  pose proof (@check_domain_replies
                Demo.World (Demo.endpoint Demo.everything_available) Demo.int_of_str
                (Demo.request [("query", PStr "Foo")]) Demo.start
                "Foo" (PInt 6) 6 eq_refl eq_refl eq_refl) as [Hreply _].
  change (fst (whoisxml_check (Demo.endpoint Demo.everything_available)
                              (normalize_domain "Foo") Demo.start))
    with (Ret true : outcome bool) in Hreply.
  destruct Hreply as [suggestions [s' [more [Hrun [_ [_ [_ [Hbound _]]]]]]]].
  exists suggestions, s'. split; [ exact Hrun | apply Hbound; lia ].
Defined.

(** X1 at the state after one registration. *)
Lemma reachable_table_witness :
  unique_ids (db Demo.registered) /\ one_active_per_pair (db Demo.registered).
Proof.
  apply (@reachable_table_is_consistent
           Demo.World (Demo.endpoint Demo.nothing_available) (Demo.relay Demo.anyone)
           Demo.clock Demo.int_of_str Demo.registered).
  apply reach_notify. apply reach_start.
Defined.

(** X4 at a request with the cap 2. *)
Lemma check_domain_lookup_budget_witness :
  exists new,
    trace (snd (check_domain (Demo.endpoint Demo.nothing_available) Demo.int_of_str
                             (Demo.request [("query", PStr "foo");
                                            ("max_suggestions", PInt 2)])
                             Demo.start))
    = new /\
    Z.of_nat (List.length new) <= 7.
Proof.
  destruct (@check_domain_lookup_budget
              Demo.World (Demo.endpoint Demo.nothing_available) Demo.int_of_str
              (Demo.request [("query", PStr "foo"); ("max_suggestions", PInt 2)])
              Demo.start "foo" (PInt 2) 2 eq_refl eq_refl eq_refl ltac:(lia))
    as [new [Htrace Hlen]].
  exists new. split; [ exact Htrace | exact Hlen ].
Defined.

(* ===================================================================== *)
(** ** Properties of the normalization *)
(* ===================================================================== *)

Module NormalizeFacts.
Import PyStr.

Ltac every_char c :=
  destruct c as [[] [] [] [] [] [] [] []]; vm_compute; try reflexivity; try congruence.

Lemma lower_char_fixed c : lower_char (lower_char c) = lower_char c.
Proof. every_char c. Qed.

Lemma lower_char_is_space c : is_space (lower_char c) = is_space c.
Proof. every_char c. Qed.

Lemma lower_fixed s : lower (lower s) = lower s.
Proof.
  induction s as [ | c s IH]; [ reflexivity | ].
  cbn [lower]. rewrite lower_char_fixed, IH. reflexivity.
Qed.

Lemma lower_app a b : lower (a ++ b) = lower a ++ lower b.
Proof.
  induction a as [ | c a IH]; [ reflexivity | ].
  cbn [append lower]. rewrite IH. reflexivity.
Qed.

Lemma lstrip_lower s : lstrip (lower s) = lower (lstrip s).
Proof.
  induction s as [ | c s IH]; [ reflexivity | ].
  cbn [lower lstrip]. rewrite lower_char_is_space.
  destruct (is_space c); [ exact IH | reflexivity ].
Qed.

Lemma rstrip_lower s : rstrip (lower s) = lower (rstrip s).
Proof.
  induction s as [ | c s IH]; [ reflexivity | ].
  cbn [lower rstrip]. rewrite IH, lower_char_is_space.
  destruct (rstrip s) as [ | c' r]; cbn [lower].
  - destruct (is_space c); reflexivity.
  - reflexivity.
Qed.

Lemma strip_lower s : strip (lower s) = lower (strip s).
Proof. unfold strip. rewrite lstrip_lower, rstrip_lower. reflexivity. Qed.

Lemma lstrip_no_lead s : no_lead (lstrip s).
Proof.
  induction s as [ | c s IH]; [ exact I | ].
  cbn [lstrip]. destruct (is_space c) eqn:Hc; [ exact IH | exact Hc ].
Qed.

Lemma no_lead_lstrip s : no_lead s -> lstrip s = s.
Proof. destruct s as [ | c s]; simpl; [ reflexivity | intros ->; reflexivity ]. Qed.

Lemma no_lead_rstrip s : no_lead s -> no_lead (rstrip s).
Proof.
  destruct s as [ | c s]; simpl; [ trivial | ]. intros Hc.
  destruct (rstrip s); [ rewrite Hc | ]; exact Hc.
Qed.

Lemma no_lead_lower s : no_lead s -> no_lead (lower s).
Proof.
  destruct s as [ | c s]; simpl; [ trivial | ].
  rewrite lower_char_is_space. trivial.
Qed.

Lemma rstrip_fixed s : rstrip (rstrip s) = rstrip s.
Proof.
  induction s as [ | c s IH]; [ reflexivity | ].
  cbn [rstrip]. destruct (rstrip s) as [ | c' r] eqn:Hr.
  - destruct (is_space c) eqn:Hc; [ reflexivity | ].
    cbn [rstrip]. rewrite Hc. reflexivity.
  - cbn [rstrip] in IH |- *. rewrite IH. reflexivity.
Qed.

Lemma strip_no_lead s : no_lead (strip s).
Proof. unfold strip. apply no_lead_rstrip, lstrip_no_lead. Qed.

Lemma strip_fixed s : strip (strip s) = strip s.
Proof.
  unfold strip at 1. rewrite (@no_lead_lstrip _ (strip_no_lead s)).
  unfold strip. apply rstrip_fixed.
Qed.

Lemma normalize_fixed x : normalize (normalize x) = normalize x.
Proof.
  unfold normalize. rewrite strip_lower, strip_fixed, lower_fixed. reflexivity.
Qed.

Lemma normalize_no_lead x : no_lead (normalize x).
Proof. unfold normalize. apply no_lead_lower, strip_no_lead. Qed.

Lemma rstrip_app (a b : string) :
  b <> EmptyString -> rstrip b = b -> rstrip (a ++ b) = a ++ b.
Proof.
  intros Hb Hfix. induction a as [ | c a IH]; [ exact Hfix | ].
  cbn [append rstrip]. rewrite IH.
  destruct (a ++ b) as [ | c' r] eqn:Hab; [ | reflexivity ].
  destruct a; [ simpl in Hab; contradiction | discriminate Hab ].
Qed.

Lemma has_dot_app (a b : string) : has_dot (a ++ b) = has_dot a || has_dot b.
Proof.
  induction a as [ | c a IH]; [ reflexivity | ].
  cbn [append]. rewrite !PyStrFacts.has_dot_cons, IH. apply orb_assoc.
Qed.

Lemma normalize_with_suffix x :
  normalize (normalize x ++ ".com") = normalize x ++ ".com".
Proof.
  unfold normalize at 1.
  assert (Hstrip : strip (normalize x ++ ".com") = normalize x ++ ".com").
  { unfold strip.
    assert (Hlead : no_lead (normalize x ++ ".com")).
    { pose proof (normalize_no_lead x) as H.
      destruct (normalize x); [ reflexivity | exact H ]. }
    rewrite (@no_lead_lstrip _ Hlead).
    apply rstrip_app; [ discriminate | reflexivity ]. }
  rewrite Hstrip, lower_app. fold (normalize x).
  unfold normalize at 1. rewrite lower_fixed. reflexivity.
Qed.

Lemma normalize_domain_has_dot x : has_dot (normalize_domain x) = true.
Proof.
  unfold normalize_domain. destruct (has_dot (normalize x)) eqn:Hd; [ exact Hd | ].
  rewrite has_dot_app. apply orb_true_r.
Qed.

Lemma normalize_domain_normal x : normalize (normalize_domain x) = normalize_domain x.
Proof.
  unfold normalize_domain. destruct (has_dot (normalize x)).
  - apply normalize_fixed.
  - apply normalize_with_suffix.
Qed.

Lemma normalize_domain_fixed x :
  normalize_domain (normalize_domain x) = normalize_domain x.
Proof.
  unfold normalize_domain at 1.
  rewrite normalize_domain_normal, normalize_domain_has_dot. reflexivity.
Qed.

End NormalizeFacts.

(* ===================================================================== *)
(** ** More properties of the suggestion generator *)
(* ===================================================================== *)

Module SuggestionBounds.
Import SuggestionFacts.

Lemma source_lists_in_distinct_pool (label : string) :
  incl (source_lists label) (distinct_pool label).
Proof.
  unfold source_lists, distinct_pool, keyword_variants, variations.
  intros x Hx.
  repeat (apply in_app_or in Hx; destruct Hx as [Hx | Hx];
          [ repeat (apply in_or_app; (left; exact Hx) || right);
            try (apply in_or_app; left; exact Hx) | ]).
  destruct Hx as [<- | [<- | [<- | [<- | []]]]].
  - do 2 (apply in_or_app; right). apply in_or_app. left.
    unfold suffix_variants, suffixes. simpl. tauto.
  - do 2 (apply in_or_app; right). apply in_or_app. left.
    unfold suffix_variants, suffixes. simpl. tauto.
  - do 2 (apply in_or_app; right). apply in_or_app. left.
    unfold suffix_variants, suffixes. simpl. tauto.
  - do 4 (apply in_or_app; right). left. reflexivity.
Qed.

Lemma first_occurrences_incl (l seen : list string) :
  incl (first_occurrences seen l) l.
Proof. intros x Hx. apply first_occurrences_fresh in Hx. tauto. Qed.

Lemma pool_at_most_44 (label : string) :
  (List.length (first_occurrences [] (source_lists label)) <= 44)%nat.
Proof.
  change 44%nat with (List.length (distinct_pool label)).
  apply NoDup_incl_length; [ apply first_occurrences_NoDup | ].
  intros x Hx. apply source_lists_in_distinct_pool.
  apply (@first_occurrences_incl (source_lists label) [] x Hx).
Qed.

Lemma slice_to_length (A : Type) (l : list A) (k : Z) :
  (List.length (slice_to l k) <= List.length l)%nat.
Proof.
  unfold slice_to. destruct (0 <=? k); rewrite length_firstn; lia.
Qed.

Lemma slice_to_NoDup (A : Type) (l : list A) (k : Z) : NoDup l -> NoDup (slice_to l k).
Proof. intros H. unfold slice_to. destruct (0 <=? k); apply NoDup_firstn, H. Qed.

Lemma generate_suggestions_NoDup (q : string) (n : Z) :
  NoDup (generate_suggestions q n).
Proof.
  rewrite generate_suggestions_eq. apply slice_to_NoDup, first_occurrences_NoDup.
Qed.

Lemma generate_suggestions_short (q : string) (n : Z) :
  (List.length (generate_suggestions q n) <= 44)%nat.
Proof.
  rewrite generate_suggestions_eq.
  pose proof (slice_to_length
                (first_occurrences [] (source_lists (label_of (PyStr.lower q))))
                (n * 3)).
  pose proof (pool_at_most_44 (label_of (PyStr.lower q))). lia.
Qed.

(** X9. Whatever the query and whatever the cap, negative or huge,
    [generate_suggestions] returns at most 44 strings, all different; it
    returns none for the cap 0 and for every cap of -15 or less. *)
Theorem generate_suggestions_at_most_44 (q : string) (n : Z) :
  (List.length (generate_suggestions q n) <= 44)%nat /\
  NoDup (generate_suggestions q n) /\
  (n = 0 \/ n <= -15 -> generate_suggestions q n = []).
Proof.
  split; [ apply generate_suggestions_short | ].
  split; [ apply generate_suggestions_NoDup | ].
  intros Hn. rewrite generate_suggestions_eq. unfold slice_to.
  pose proof (pool_at_most_44 (label_of (PyStr.lower q))) as Hpool.
  destruct (0 <=? n * 3) eqn:Hsign.
  - apply Z.leb_le in Hsign. assert (n = 0) as -> by lia. reflexivity.
  - apply Z.leb_gt in Hsign.
    replace (Z.to_nat
               (Z.of_nat (List.length (first_occurrences []
                                         (source_lists (label_of (PyStr.lower q)))))
                + n * 3)) with 0%nat by lia.
    reflexivity.
Qed.

Lemma split_head (a b : string) :
  PyStr.has_dot a = false ->
  nth 0 (PyStr.split PyStr.dot (a ++ String PyStr.dot b)) EmptyString = a.
Proof.
  induction a as [ | c a IH]; intros Hdot.
  - simpl. reflexivity.
  - rewrite PyStrFacts.has_dot_cons in Hdot. apply orb_false_iff in Hdot.
    destruct Hdot as [Hc Ha]. specialize (IH Ha).
    cbn [append PyStr.split]. rewrite Hc.
    destruct (PyStr.split PyStr.dot (a ++ String PyStr.dot b)) as [ | h t];
      simpl in IH |- *; rewrite IH; reflexivity.
Qed.

Lemma label_of_dotless (a : string) : PyStr.has_dot a = false -> label_of a = a.
Proof. intros H. unfold label_of. rewrite H. reflexivity. Qed.

Lemma label_of_dotted (a b : string) :
  PyStr.has_dot a = false -> label_of (a ++ String PyStr.dot b) = a.
Proof.
  intros H. unfold label_of.
  rewrite NormalizeFacts.has_dot_app, PyStrFacts.has_dot_cons.
  replace (Ascii.eqb PyStr.dot PyStr.dot) with true by reflexivity.
  rewrite orb_true_r. apply split_head. exact H.
Qed.

(** X10. For a query of the range U+0000 to U+00FF, the suggestions
    depend on the query only through the lower case of what stands before
    its first dot: a query with a dot gets the suggestions of the part
    before the dot, and the case of the letters makes no difference. (This
    is a property of that range: the lower case of U+03A3 depends on what
    follows it, so that a query ending in it and the same query followed
    by a dot and a letter get different labels.) *)
Theorem generate_suggestions_uses_the_label (a b : string) (n : Z) :
  PyStr.has_dot a = false ->
  generate_suggestions (a ++ "." ++ b) n = generate_suggestions a n /\
  generate_suggestions (PyStr.lower a) n = generate_suggestions a n /\
  generate_suggestions a n =
  slice_to (first_occurrences [] (source_lists (PyStr.lower a))) (n * 3).
Proof.
  intros Ha.
  assert (Hla : PyStr.has_dot (PyStr.lower a) = false)
    by (rewrite PyStrFacts.has_dot_lower; exact Ha).
  rewrite !generate_suggestions_eq.
  rewrite NormalizeFacts.lower_fixed, NormalizeFacts.lower_app.
  change (PyStr.lower ("." ++ b)) with (String PyStr.dot (PyStr.lower b)).
  rewrite (@label_of_dotted (PyStr.lower a) (PyStr.lower b) Hla),
    (@label_of_dotless (PyStr.lower a) Hla).
  repeat split.
Qed.

End SuggestionBounds.

(* ===================================================================== *)
(** ** Properties of the configuration *)
(* ===================================================================== *)

Module ConfigFacts.
Import Config.

Lemma falsy_spec (v : option string) :
  falsy v = false <-> exists k, v = Some k /\ k <> EmptyString.
Proof.
  destruct v as [k | ]; simpl.
  - rewrite String.eqb_neq. split.
    + intros H. exists k. split; [ reflexivity | exact H ].
    + intros [k' [Hk Hne]]. injection Hk as <-. exact Hne.
  - split; [ discriminate | intros [k [H _]]; discriminate H ].
Qed.

(** X5. The module loads only with a key: when [load] succeeds the
    variable WHOISXML_API_KEY is set to a non-empty text, which the
    settings carry; when it is unset or set to the empty text, [load]
    fails whatever the rest of the environment. The integer settings are
    converted before the key is looked at: a text of SMTP_PORT that [int]
    refuses stops the load with that [ValueError] even when the key is
    missing, and so does one of CHECK_INTERVAL_SECONDS once the port
    converts. *)
Theorem load_needs_the_key (int_of_str : string -> option Z) (env : environ) :
  let port_text := getenv_default (fun v => v) env "SMTP_PORT" "587" in
  let interval_text := getenv_default (fun v => v) env "CHECK_INTERVAL_SECONDS" "300" in
  (forall c, load int_of_str env = inr c ->
             exists k, env "WHOISXML_API_KEY" = Some k /\ k <> EmptyString /\
                       WHOISXML_API_KEY c = Some k) /\
  (falsy (env "WHOISXML_API_KEY") = true ->
   exists err, load int_of_str env = inl err) /\
  (int_of_str port_text = None ->
   load int_of_str env = inl (IntValueError "SMTP_PORT" port_text)) /\
  (forall port, int_of_str port_text = Some port ->
                int_of_str interval_text = None ->
                load int_of_str env =
                inl (IntValueError "CHECK_INTERVAL_SECONDS" interval_text)) /\
  (forall port interval,
      int_of_str port_text = Some port ->
      int_of_str interval_text = Some interval ->
      falsy (env "WHOISXML_API_KEY") = true ->
      load int_of_str env = inl KeyMissing).
Proof.
  intros port_text interval_text. unfold load. fold port_text. fold interval_text.
  unfold getenv.
  destruct (int_of_str port_text) as [port | ];
    [ destruct (int_of_str interval_text) as [interval | ] | ].
  - destruct (falsy (env "WHOISXML_API_KEY")) eqn:Hkey.
    + repeat split; try discriminate; try reflexivity.
      eexists; reflexivity.
    + apply falsy_spec in Hkey. destruct Hkey as [k [Hk Hne]].
      repeat split; try discriminate.
      intros c Hc. injection Hc as <-. exists k. simpl. tauto.
  - repeat split; try discriminate; try reflexivity.
    intros _. eexists; reflexivity.
  - repeat split; try discriminate; try reflexivity.
    intros _. eexists; reflexivity.
Qed.

End ConfigFacts.

(* ===================================================================== *)
(** ** Properties of the SMTP session *)
(* ===================================================================== *)

Section SmtpFacts.

Variable World : Type.
Variable smtplib : smtp_call -> World -> outcome unit * World.
Variable cfg : Config.settings.

Set Default Proof Using "Type".

Local Abbreviation session := (send_email_calls smtplib cfg).

Ltac distinct_calls :=
  repeat (constructor; [ simpl; intuition discriminate | ]); constructor.

Ltac in_cases H :=
  simpl in H; repeat (destruct H as [H | H]; [ try discriminate H | ]);
  try contradiction.

Ltac gated :=
  split;
  [ intros user password H; in_cases H; split; reflexivity
  | split;
    [ intros from_addr to_addrs m H; in_cases H;
      match type of H with
      | ?c = _ => unfold c in H
      end;
      injection H as <- <- <-; repeat split; reflexivity
    | split; [ intros H; try reflexivity; in_cases H
             | intros H; try discriminate H; simpl; tauto ] ] ].

(** X6. Whatever the relay does, [send_email] makes each of its calls at
    most once and in one order: the connection, STARTTLS, the login, the
    sending, and the exit of the [with] block. The login is made only when
    the connection and STARTTLS have returned, so the password never goes
    over a session where STARTTLS failed; the mail is sent only when the
    login has returned too, from FROM_EMAIL to the one recipient; the exit
    is run exactly when the connection was made, and it is the last
    call. *)
Theorem send_email_calls_in_order (to_email subject body : string) (w : World) :
  let connect := SMTP_connect (Config.SMTP_HOST cfg) (Config.SMTP_PORT cfg) in
  let login := SMTP_login (Config.SMTP_EMAIL cfg) (Config.SMTP_PASSWORD cfg) in
  let msg := {| payload := body; Subject := subject;
                From := Config.FROM_EMAIL cfg; To := to_email |} in
  let sendmail := SMTP_sendmail (Config.FROM_EMAIL cfg) [to_email] msg in
  let w1 := snd (smtplib connect w) in
  let w2 := snd (smtplib SMTP_starttls w1) in
  let calls := snd (fst (session to_email subject body w)) in
  NoDup calls /\
  (exists n, firstn n [connect; SMTP_starttls; login; sendmail] =
             filter (fun c => match c with SMTP_exit => false | _ => true end) calls) /\
  (exists n, calls = (firstn n [connect; SMTP_starttls; login; sendmail]
                      ++ if returned (smtplib connect w) then [SMTP_exit] else [])%list) /\
  (forall user password,
      In (SMTP_login user password) calls ->
      returned (smtplib connect w) = true /\
      returned (smtplib SMTP_starttls w1) = true) /\
  (forall from_addr to_addrs m,
      In (SMTP_sendmail from_addr to_addrs m) calls ->
      returned (smtplib connect w) = true /\
      returned (smtplib SMTP_starttls w1) = true /\
      returned (smtplib login w2) = true /\
      from_addr = Config.FROM_EMAIL cfg /\ to_addrs = [to_email] /\ m = msg) /\
  (In SMTP_exit calls <-> returned (smtplib connect w) = true).
Proof.
  intros connect login msg sendmail w1 w2 calls.
  subst calls w2 w1. unfold send_email_calls, with_block, returned.
  fold connect. fold login. fold msg. fold sendmail.
  destruct (smtplib connect w) as [[u0 | e0] w1]; cbn [fst snd].
  - destruct (smtplib SMTP_starttls w1) as [[u1 | e1] w2]; cbn [fst snd].
    + destruct (smtplib login w2) as [[u2 | e2] w3]; cbn [fst snd].
      * destruct (smtplib sendmail w3) as [r w4].
        destruct (smtplib SMTP_exit w4) as [x w5]. cbn [fst snd app].
        split; [ distinct_calls | ].
        split; [ exists 4%nat; reflexivity | ].
        split; [ exists 4%nat; reflexivity | gated ].
      * destruct (smtplib SMTP_exit w3) as [x w5]. cbn [fst snd app].
        split; [ distinct_calls | ].
        split; [ exists 3%nat; reflexivity | ].
        split; [ exists 3%nat; reflexivity | gated ].
    + destruct (smtplib SMTP_exit w2) as [x w5]. cbn [fst snd app].
      split; [ distinct_calls | ].
      split; [ exists 2%nat; reflexivity | ].
        split; [ exists 2%nat; reflexivity | gated ].
  - split; [ distinct_calls | ].
    split; [ exists 1%nat; reflexivity | ].
        split; [ exists 1%nat; reflexivity | gated ].
Qed.

(** X7. [send_email] returns exactly when all five calls have returned,
    the exit of the [with] block included: a QUIT the relay refuses makes
    [send_email] raise although the mail was handed over. *)
Theorem send_email_returns_iff (to_email subject body : string) (w : World) :
  let connect := SMTP_connect (Config.SMTP_HOST cfg) (Config.SMTP_PORT cfg) in
  let login := SMTP_login (Config.SMTP_EMAIL cfg) (Config.SMTP_PASSWORD cfg) in
  let msg := {| payload := body; Subject := subject;
                From := Config.FROM_EMAIL cfg; To := to_email |} in
  let sendmail := SMTP_sendmail (Config.FROM_EMAIL cfg) [to_email] msg in
  let w1 := snd (smtplib connect w) in
  let w2 := snd (smtplib SMTP_starttls w1) in
  let w3 := snd (smtplib login w2) in
  let w4 := snd (smtplib sendmail w3) in
  fst (fst (session to_email subject body w)) = Ret tt <->
  returned (smtplib connect w) = true /\
  returned (smtplib SMTP_starttls w1) = true /\
  returned (smtplib login w2) = true /\
  returned (smtplib sendmail w3) = true /\
  returned (smtplib SMTP_exit w4) = true.
Proof.
  intros connect login msg sendmail w1 w2 w3 w4.
  subst w4 w3 w2 w1. unfold send_email_calls, with_block, returned.
  fold connect. fold login. fold msg. fold sendmail.
  destruct (smtplib connect w) as [[u0 | e0] w1]; cbn [fst snd];
    [ | split; [ discriminate | intros [H _]; discriminate H ] ].
  destruct (smtplib SMTP_starttls w1) as [[u1 | e1] w2]; cbn [fst snd].
  - destruct (smtplib login w2) as [[u2 | e2] w3]; cbn [fst snd].
    + destruct (smtplib sendmail w3) as [[[] | e3] w4]; cbn [fst snd];
        destruct (smtplib SMTP_exit w4) as [[u4 | e4] w5]; cbn [fst snd];
        split; try tauto; try discriminate;
        intros H; decompose [and] H; discriminate.
    + destruct (smtplib SMTP_exit w3) as [[u4 | e4] w5]; cbn [fst snd];
        split; try discriminate; intros H; decompose [and] H; discriminate.
  - destruct (smtplib SMTP_exit w2) as [[u4 | e4] w5]; cbn [fst snd];
      split; try discriminate; intros H; decompose [and] H; discriminate.
Qed.

Variable requests_get : string -> World -> outcome Response * World.

(** X8. The background job with the SMTP session spelled out: when the
    lookup of an entry answers "available" and the relay takes the mail
    (the connection, STARTTLS, the login and the sending all return) but
    the exit of the [with] block raises, the entry is not marked: the
    table is as it was and the row stays pending although the mail was
    handed over, and the failure is printed. *)
Theorem refused_quit_leaves_row_pending
        (note : Notification) (s : state World) (e : pyexn) :
  let connect := SMTP_connect (Config.SMTP_HOST cfg) (Config.SMTP_PORT cfg) in
  let login := SMTP_login (Config.SMTP_EMAIL cfg) (Config.SMTP_PASSWORD cfg) in
  let msg := {| payload := mail_body (domain note);
                Subject := mail_subject (domain note);
                From := Config.FROM_EMAIL cfg; To := email note |} in
  let sendmail := SMTP_sendmail (Config.FROM_EMAIL cfg) [email note] msg in
  let s1 := snd (whoisxml_check requests_get (domain note) s) in
  let w1 := snd (smtplib connect (world s1)) in
  let w2 := snd (smtplib SMTP_starttls w1) in
  let w3 := snd (smtplib login w2) in
  let w4 := snd (smtplib sendmail w3) in
  let s' := snd (process_note requests_get (smtp_session_calls smtplib cfg) note s) in
  fst (whoisxml_check requests_get (domain note) s) = Ret true ->
  returned (smtplib connect (world s1)) = true ->
  returned (smtplib SMTP_starttls w1) = true ->
  returned (smtplib login w2) = true ->
  returned (smtplib sendmail w3) = true ->
  fst (smtplib SMTP_exit w4) = Raise e ->
  db s' = db s /\
  In sendmail (snd (fst (session (email note) (mail_subject (domain note))
                                 (mail_body (domain note)) (world s1)))) /\
  trace s' =
  (trace s1 ++ [Mail (email note) (mail_subject (domain note))
                     (mail_body (domain note)) (Raise e);
                Printed (EmailSendFailed e)])%list.
Proof.
  intros connect login msg sendmail s1 w1 w2 w3 w4 s'.
  subst s' w4 w3 w2 w1 s1. rewrite whois_fst, whois_snd, process_note_run.
  unfold after_note, after_mail, smtp_session_calls, send_email_calls, with_block,
    returned.
  fold connect. fold login. fold msg. fold sendmail.
  intros Hlookup. rewrite Hlookup. cbn [world after_lookup record_event set_world].
  destruct (smtplib connect (snd (requests_get (domain note) (world s))))
    as [[u0 | e0] w1]; cbn [fst snd]; [ | discriminate ]. intros _.
  destruct (smtplib SMTP_starttls w1) as [[u1 | e1] w2]; cbn [fst snd];
    [ | discriminate ]. intros _.
  destruct (smtplib login w2) as [[u2 | e2] w3]; cbn [fst snd];
    [ | discriminate ]. intros _.
  destruct (smtplib sendmail w3) as [[u3 | e3] w4]; cbn [fst snd];
    [ | discriminate ]. intros _.
  destruct (smtplib SMTP_exit w4) as [x w5]; cbn [fst snd]. intros ->.
  cbn [fst snd db trace record_event set_world set_db app].
  split; [ reflexivity | ]. split; [ simpl; tauto | ].
  rewrite <- app_assoc. reflexivity.
Qed.

End SmtpFacts.

(* ===================================================================== *)
(** ** More properties of the handlers and of the background job *)
(* ===================================================================== *)

Section MoreProperties.

Variable World : Type.
Variable requests_get : string -> World -> outcome Response * World.
Variable smtp_session : string -> string -> string -> World -> outcome unit * World.
Variable time_time : World -> pyfloat * World.
Variable int_of_str : string -> option Z.

Set Default Proof Using "Type".

Local Abbreviation state := (state World).
Local Abbreviation whois := (whoisxml_check requests_get).
Local Abbreviation check := (check_domain requests_get int_of_str).
Local Abbreviation register := (notify time_time).
Local Abbreviation poll := (process_notifications requests_get smtp_session).
Local Abbreviation sift := (filter_available requests_get).
Local Abbreviation looked := (after_lookup requests_get).
Local Abbreviation run_note := (after_note requests_get smtp_session).
Local Abbreviation run_notes := (after_notes requests_get smtp_session).
Local Abbreviation delivered_in := (delivered requests_get smtp_session).
Local Abbreviation run := (run_ops requests_get smtp_session time_time int_of_str).
Local Abbreviation step := (run_op requests_get smtp_session time_time int_of_str).
Local Abbreviation reachable := (reachable requests_get smtp_session time_time int_of_str).
Local Abbreviation route := (notify_route time_time).

Ltac drop_unused :=
  repeat match goal with
         | call : _ -> _ |- _ => clear call
         end.

(* --------------------------------------------------------------------- *)
(** *** POST /check *)

Lemma sends_returned_app (a b : list event) :
  sends_returned (a ++ b) = (sends_returned a + sends_returned b)%nat.
Proof. unfold sends_returned. rewrite filter_app. apply length_app. Qed.

(** The loop of /check: what it picks, in the order of the candidates,
    and what it adds to the trace, lookups only, the first of them on the
    first candidate. *)
Lemma filter_available_order (cands : list string) (m : Z) (acc : list string)
      (s : state) :
  exists picked more,
    fst (sift cands m acc s) = Ret (acc ++ picked)%list /\
    subsequence picked cands /\
    trace (snd (sift cands m acc s)) = (trace s ++ more)%list /\
    forallb is_lookup more = true /\
    (List.length more <= List.length cands)%nat /\
    match cands with
    | [] => more = []
    | cand :: _ => exists r rest, more = Lookup cand r :: rest
    end.
Proof.
  drop_unused.
  revert acc s. induction cands as [ | cand rest IH]; intros acc s.
  - exists [], []. simpl. rewrite !app_nil_r.
    refine (conj eq_refl (conj _ (conj eq_refl (conj eq_refl (conj _ eq_refl))))).
    + constructor.
    + lia.
  - cbn [filter_available]. unfold bind, try_except. rewrite whoisxml_check_run.
    set (s1 := looked cand s).
    set (r0 := fst (requests_get cand (world s))).
    assert (Htr1 : trace s1 = (trace s ++ [Lookup cand r0])%list) by reflexivity.
    assert (Hgo : forall p,
               subsequence p [cand] ->
               exists picked more,
                 fst (sift rest m (acc ++ p)%list s1) = Ret (acc ++ picked)%list /\
                 subsequence picked (cand :: rest) /\
                 trace (snd (sift rest m (acc ++ p)%list s1)) = (trace s ++ more)%list /\
                 forallb is_lookup more = true /\
                 (List.length more <= List.length (cand :: rest))%nat /\
                 exists r rest', more = Lookup cand r :: rest').
    { intros p Hp.
      destruct (IH (acc ++ p)%list s1)
        as [picked [more [Hout [Hsub [Htr [Hmails [Hlen _]]]]]]].
      exists (p ++ picked)%list, ([Lookup cand r0] ++ more)%list.
      rewrite Hout, Htr, Htr1, <- !app_assoc.
      refine (conj eq_refl (conj _ (conj eq_refl (conj _ (conj _ _))))).
      - inversion Hp as [ | x l1 l2 Hnil | x l1 l2 Hnil]; subst.
        + inversion Hnil; subst. simpl. apply subseq_skip. exact Hsub.
        + inversion Hnil; subst. simpl. apply subseq_take. exact Hsub.
      - rewrite forallb_app, Hmails. reflexivity.
      - simpl. lia.
      - do 2 eexists. reflexivity. }
    assert (Hstop : forall p,
               subsequence p [cand] ->
               exists picked more,
                 Ret (acc ++ p)%list = Ret (acc ++ picked)%list /\
                 subsequence picked (cand :: rest) /\
                 trace s1 = (trace s ++ more)%list /\
                 forallb is_lookup more = true /\
                 (List.length more <= List.length (cand :: rest))%nat /\
                 exists r rest', more = Lookup cand r :: rest').
    { intros p Hp. exists p, [Lookup cand r0].
      refine (conj eq_refl (conj _ (conj Htr1 (conj eq_refl (conj _ _))))).
      - inversion Hp as [ | x l1 l2 Hnil | x l1 l2 Hnil]; subst.
        + inversion Hnil; subst. apply subseq_skip.
          clear. induction rest; constructor; assumption.
        + inversion Hnil; subst. apply subseq_take.
          clear. induction rest; constructor; assumption.
      - simpl. lia.
      - do 2 eexists. reflexivity. }
    destruct (whois_answer r0) as [[ | ] | e].
    + destruct (Z.of_nat (List.length (acc ++ [cand])) >=? m);
        unfold ret; cbn iota beta.
      * apply (Hstop [cand]). apply subseq_take. constructor.
      * apply (Hgo [cand]). apply subseq_take. constructor.
    + destruct (Z.of_nat (List.length acc) >=? m); unfold ret; cbn iota beta.
      * specialize (Hstop []). rewrite app_nil_r in Hstop.
        apply Hstop. apply subseq_skip. constructor.
      * specialize (Hgo []). rewrite app_nil_r in Hgo.
        apply Hgo. apply subseq_skip. constructor.
    + unfold ret. cbn iota beta.
      specialize (Hgo []). rewrite app_nil_r in Hgo.
      apply Hgo. apply subseq_skip. constructor.
Qed.

Lemma subsequence_In (A : Type) (l1 l2 : list A) (x : A) :
  subsequence l1 l2 -> In x l1 -> In x l2.
Proof.
  induction 1 as [ | y l1 l2 _ IH | y l1 l2 _ IH]; simpl; intros HIn.
  - exact HIn.
  - right. apply IH. exact HIn.
  - destruct HIn as [-> | HIn]; [ left; reflexivity | right; apply IH; exact HIn ].
Qed.

Lemma subsequence_NoDup (A : Type) (l1 l2 : list A) :
  subsequence l1 l2 -> NoDup l2 -> NoDup l1.
Proof.
  induction 1 as [ | y l1 l2 Hsub IH | y l1 l2 Hsub IH]; intros Hnd.
  - constructor.
  - inversion Hnd; subst. apply IH. assumption.
  - inversion Hnd as [ | ? ? Hnotin Hnd']; subst. constructor.
    + intros HIn. apply Hnotin. eapply subsequence_In; eassumption.
    + apply IH. exact Hnd'.
Qed.

Lemma strip_lower_inv (v : pyval) (x : string) :
  strip_lower v = Ret x -> exists raw, v = PStr raw /\ x = normalize raw.
Proof.
  destruct v; simpl; try discriminate.
  intros H. injection H as <-. eexists. split; reflexivity.
Qed.

(** Either the request has what /check reads from it, or the handler
    raises at once. *)
Lemma check_domain_early (data : pyval) (s : state) :
  (exists q v m,
      Py.get data "query" (PStr EmptyString) = Ret (PStr q) /\
      Py.get data "max_suggestions" (PInt 6) = Ret v /\
      py_int int_of_str v = Ret m) \/
  (exists e, check data s = (Raise e, s)) /\
  ~ (exists q v m,
      Py.get data "query" (PStr EmptyString) = Ret (PStr q) /\
      Py.get data "max_suggestions" (PInt 6) = Ret v /\
      py_int int_of_str v = Ret m).
Proof.
  drop_unused.
  unfold check_domain, bind, lift.
  destruct (Py.get data "query" (PStr EmptyString)) as [qv | e0] eqn:Hq.
  - destruct (strip_lower qv) as [q0 | e1] eqn:Hs.
    + apply strip_lower_inv in Hs. destruct Hs as [raw [-> ->]].
      destruct (Py.get data "max_suggestions" (PInt 6)) as [mv | e2] eqn:Hm.
      * destruct (py_int int_of_str mv) as [m | e3] eqn:Hi.
        -- left. exists raw, mv, m. repeat split. exact Hi.
        -- right. split; [ eexists; reflexivity | ].
           intros [q [v [m [_ [Hv Hint]]]]]. congruence.
      * right. split; [ eexists; reflexivity | ].
        intros [q [v [m [_ [Hv _]]]]]. discriminate Hv.
    + right. split; [ eexists; reflexivity | ].
      intros [q [v [m [Hq' _]]]]. injection Hq' as ->. discriminate Hs.
  - right. split; [ eexists; reflexivity | ].
    intros [q [v [m [Hq' _]]]]. discriminate Hq'.
Qed.

Lemma check_domain_answers (data : pyval) (s : state) (q : string) (v : pyval) (m : Z) :
  Py.get data "query" (PStr EmptyString) = Ret (PStr q) ->
  Py.get data "max_suggestions" (PInt 6) = Ret v ->
  py_int int_of_str v = Ret m ->
  exists reply, fst (check data s) = Ret reply.
Proof.
  intros Hq Hv Hm. rewrite (@check_domain_run World requests_get int_of_str data s q v m Hq Hv Hm).
  destruct (whois_answer (fst (requests_get (normalize_domain q) (world s))));
    [ | eexists; reflexivity ].
  destruct (filter_available_order (generate_suggestions (normalize q) m) m []
                                   (looked (normalize_domain q) s))
    as [picked [more [Hout _]]].
  destruct (sift (generate_suggestions (normalize q) m) m []
                 (looked (normalize_domain q) s)) as [[out | e] s'];
    [ eexists; reflexivity | discriminate Hout ].
Qed.

(** X14. /check raises only before it has done anything: when the handler
    raises, no lookup has been made and the state is as it was. It raises
    exactly when the body is no object, the query is no string, or
    max_suggestions does not convert; for every other request it replies,
    whatever the lookups do. *)
Theorem check_domain_raises_before_any_lookup (data : pyval) (s : state) :
  (forall e, fst (check data s) = Raise e -> snd (check data s) = s) /\
  ((exists q v m,
       Py.get data "query" (PStr EmptyString) = Ret (PStr q) /\
       Py.get data "max_suggestions" (PInt 6) = Ret v /\
       py_int int_of_str v = Ret m) <->
   (exists reply, fst (check data s) = Ret reply)).
Proof.
  drop_unused.
  destruct (check_domain_early data s)
    as [[q [v [m [Hq [Hv Hm]]]]] | [[e0 Hraise] Hnot]].
  - destruct (@check_domain_answers data s q v m Hq Hv Hm) as [reply Hreply].
    split.
    + intros e He. rewrite Hreply in He. discriminate He.
    + split; [ intros _; exists reply; exact Hreply | ].
      intros _. exists q, v, m. tauto.
  - split.
    + intros e _. rewrite Hraise. reflexivity.
    + split; [ intros H; contradiction | ].
      intros [reply Hreply]. rewrite Hraise in Hreply. discriminate Hreply.
Qed.

(** X11. The suggestions of a reply are all different and stand in the
    order of the generated candidates. *)
Theorem check_domain_suggestions_in_order
        (data : pyval) (s : state) (q : string) (v : pyval) (m : Z)
        (dom : string) (available : bool) (suggestions : list string) (code : Z) :
  Py.get data "query" (PStr EmptyString) = Ret (PStr q) ->
  Py.get data "max_suggestions" (PInt 6) = Ret v ->
  py_int int_of_str v = Ret m ->
  fst (check data s) = Ret (BCheck dom available suggestions, code) ->
  NoDup suggestions /\
  subsequence suggestions (generate_suggestions (normalize q) m).
Proof.
  intros Hq Hv Hm. rewrite (@check_domain_run World requests_get int_of_str data s q v m Hq Hv Hm).
  destruct (whois_answer (fst (requests_get (normalize_domain q) (world s))));
    [ | discriminate ].
  destruct (filter_available_order (generate_suggestions (normalize q) m) m []
                                   (looked (normalize_domain q) s))
    as [picked [more [Hout [Hsub _]]]].
  destruct (sift (generate_suggestions (normalize q) m) m []
                 (looked (normalize_domain q) s)) as [[out | e] s'];
    [ | discriminate ].
  cbn [fst] in Hout |- *. injection Hout as ->. intros Hreply.
  injection Hreply as _ _ <- _.
  split; [ | exact Hsub ].
  eapply subsequence_NoDup; [ exact Hsub | ].
  apply SuggestionBounds.generate_suggestions_NoDup.
Qed.

Lemma normalize_lower (q : string) : PyStr.lower (normalize q) = normalize q.
Proof. unfold normalize. apply NormalizeFacts.lower_fixed. Qed.

Lemma normalize_has_dot (q : string) : PyStr.has_dot (normalize q) = PyStr.has_dot q.
Proof.
  unfold normalize. rewrite PyStrFacts.has_dot_lower. apply PyStrFacts.has_dot_strip.
Qed.

(** For a query without a dot the first candidate is the domain of the
    primary lookup. *)
Lemma first_candidate (q : string) (m : Z) :
  PyStr.has_dot q = false -> 1 <= m ->
  exists others, generate_suggestions (normalize q) m = normalize_domain q :: others.
Proof.
  intros Hdot Hm. rewrite SuggestionFacts.generate_suggestions_eq, normalize_lower.
  assert (Hn : PyStr.has_dot (normalize q) = false)
    by (rewrite normalize_has_dot; exact Hdot).
  rewrite (@SuggestionBounds.label_of_dotless (normalize q) Hn).
  rewrite SuggestionFacts.slice_to_nonneg by lia.
  unfold normalize_domain. rewrite Hn.
  destruct (Z.to_nat (m * 3)) as [ | k] eqn:Hk; [ lia | ].
  set (label := normalize q).
  assert (Hpool : source_lists label
                  = (label ++ ".com")%string :: List.tl (source_lists label))
    by reflexivity.
  rewrite Hpool. generalize (List.tl (source_lists label)). intros tail.
  exists (firstn k (first_occurrences [(label ++ ".com")%string] tail)).
  reflexivity.
Qed.

(** X12. For a query without a dot and a cap of 1 or more, /check asks
    the endpoint about the same domain twice when the primary lookup
    returns: the first candidate of the suggestions is the domain just
    looked up. *)
Theorem check_domain_looks_up_twice
        (data : pyval) (s : state) (q : string) (v : pyval) (m : Z) :
  Py.get data "query" (PStr EmptyString) = Ret (PStr q) ->
  Py.get data "max_suggestions" (PInt 6) = Ret v ->
  py_int int_of_str v = Ret m ->
  PyStr.has_dot q = false ->
  1 <= m ->
  returned (whois (normalize_domain q) s) = true ->
  exists r1 r2 rest,
    trace (snd (check data s)) =
    (trace s ++ Lookup (normalize_domain q) r1
             :: Lookup (normalize_domain q) r2 :: rest)%list.
Proof.
  drop_unused.
  intros Hq Hv Hm Hdot Hcap. unfold returned. rewrite whois_fst.
  rewrite (@check_domain_run World requests_get int_of_str data s q v m Hq Hv Hm).
  destruct (whois_answer (fst (requests_get (normalize_domain q) (world s))));
    [ intros _ | discriminate ].
  destruct (@first_candidate q m Hdot Hcap) as [others Hcands].
  destruct (filter_available_order (generate_suggestions (normalize q) m) m []
                                   (looked (normalize_domain q) s))
    as [picked [more [Hout [_ [Htr [_ [_ Hfirst]]]]]]].
  rewrite Hcands in Hfirst. destruct Hfirst as [r2 [rest ->]].
  destruct (sift (generate_suggestions (normalize q) m) m []
                 (looked (normalize_domain q) s)) as [[out | e] s'];
    [ | discriminate Hout ].
  cbn [snd] in Htr |- *. rewrite Htr.
  change (trace (looked (normalize_domain q) s))
    with (trace s ++ [Lookup (normalize_domain q)
                             (fst (requests_get (normalize_domain q) (world s)))])%list.
  rewrite <- app_assoc. do 3 eexists. reflexivity.
Qed.

(** What /check adds to the trace. *)
Lemma lookups_no_mail (l : list event) :
  forallb is_lookup l = true -> sends_returned l = 0%nat.
Proof.
  unfold sends_returned. induction l as [ | ev l IH]; [ reflexivity | ].
  cbn [forallb filter]. intros H. apply andb_true_iff in H. destruct H as [Hev Hl].
  destruct ev; try discriminate Hev. cbn [send_returned]. apply IH. exact Hl.
Qed.

Lemma check_domain_new_events (data : pyval) (s : state) :
  exists new,
    trace (snd (check data s)) = (trace s ++ new)%list /\
    (List.length new <= 45)%nat /\
    forallb is_lookup new = true.
Proof.
  drop_unused.
  destruct (check_domain_early data s)
    as [[q [v [m [Hq [Hv Hm]]]]] | [[e0 Hraise] _]].
  - rewrite (@check_domain_run World requests_get int_of_str data s q v m Hq Hv Hm).
    destruct (whois_answer (fst (requests_get (normalize_domain q) (world s)))).
    + destruct (filter_available_order (generate_suggestions (normalize q) m) m []
                                       (looked (normalize_domain q) s))
        as [picked [more [Hout [_ [Htr [Hmails [Hlen _]]]]]]].
      destruct (sift (generate_suggestions (normalize q) m) m []
                     (looked (normalize_domain q) s)) as [[out | e] s'];
        [ | discriminate Hout ].
      cbn [snd] in Htr |- *. rewrite Htr.
      change (trace (looked (normalize_domain q) s))
        with (trace s ++ [Lookup (normalize_domain q)
                                 (fst (requests_get (normalize_domain q) (world s)))])%list.
      rewrite <- app_assoc. eexists. split; [ reflexivity | ].
      pose proof (SuggestionBounds.generate_suggestions_short (normalize q) m).
      split.
      * rewrite length_app. cbn [List.length]. lia.
      * rewrite forallb_app, Hmails. reflexivity.
    + cbn [snd]. eexists. split; [ reflexivity | ].
      split; [ cbn [List.length]; lia | reflexivity ].
  - rewrite Hraise. exists []. cbn [snd]. rewrite app_nil_r.
    split; [ reflexivity | ]. split; [ simpl; lia | reflexivity ].
Qed.

(** X13. Whatever the request and whatever the cap, /check makes at most
    45 calls to the endpoint, the primary lookup and one per candidate,
    and does nothing else the trace records: no mail is sent and nothing
    is printed. *)
Theorem check_domain_at_most_45_lookups (data : pyval) (s : state) :
  exists new,
    trace (snd (check data s)) = (trace s ++ new)%list /\
    (List.length new <= 45)%nat /\
    forallb is_lookup new = true.
Proof. exact (check_domain_new_events data s). Qed.

(* --------------------------------------------------------------------- *)
(** *** POST /notify *)

(** Either the request has what /notify reads from it, or the handler
    raises at once. *)
Lemma notify_early (data : pyval) (s : state) :
  (exists d e,
      Py.get data "domain" (PStr EmptyString) = Ret (PStr d) /\
      Py.get data "email" (PStr EmptyString) = Ret (PStr e)) \/
  (exists err, register data s = (Raise err, s)) /\
  ~ (exists d e,
      Py.get data "domain" (PStr EmptyString) = Ret (PStr d) /\
      Py.get data "email" (PStr EmptyString) = Ret (PStr e)).
Proof.
  drop_unused.
  unfold notify, bind, lift.
  destruct (Py.get data "domain" (PStr EmptyString)) as [dv | e0] eqn:Hd.
  - destruct (strip_lower dv) as [d0 | e1] eqn:Hs.
    + apply strip_lower_inv in Hs. destruct Hs as [d [-> ->]].
      destruct (Py.get data "email" (PStr EmptyString)) as [ev | e2] eqn:He.
      * destruct (strip_lower ev) as [e3 | e4] eqn:Hs'.
        -- apply strip_lower_inv in Hs'. destruct Hs' as [e [-> ->]].
           left. exists d, e. split; reflexivity.
        -- right. split; [ eexists; reflexivity | ].
           intros [d' [e' [_ He']]]. injection He' as ->. discriminate Hs'.
      * right. split; [ eexists; reflexivity | ].
        intros [d' [e' [_ He']]]. discriminate He'.
    + right. split; [ eexists; reflexivity | ].
      intros [d' [e' [Hd' _]]]. injection Hd' as ->. discriminate Hs.
  - right. split; [ eexists; reflexivity | ].
    intros [d' [e' [Hd' _]]]. discriminate Hd'.
Qed.

(** X15. /notify raises only before it has done anything: when the
    handler raises, the table and the rest of the state are as they were,
    and nothing is registered by halves. It raises exactly when the body
    is no object or when the domain or the email is present and is no
    string; for every other request the reply is one of the two messages,
    and the trace is untouched: a registration makes no call outside the
    process but the reading of the clock. *)
Theorem notify_raises_before_any_change (data : pyval) (s : state) :
  (forall err, fst (register data s) = Raise err -> snd (register data s) = s) /\
  ((exists d e,
       Py.get data "domain" (PStr EmptyString) = Ret (PStr d) /\
       Py.get data "email" (PStr EmptyString) = Ret (PStr e)) <->
   (fst (register data s) = Ret already \/ fst (register data s) = Ret created)) /\
  trace (snd (register data s)) = trace s /\
  (fst (register data s) = Ret already \/
   fst (register data s) = Ret created \/
   exists err, register data s = (Raise err, s)).
Proof.
  drop_unused.
  destruct (notify_early data s) as [[d [e [Hd He]]] | [[err Hraise] Hnot]].
  - rewrite (@notify_run World time_time data s d e Hd He).
    destruct (find (is_active_for (normalize_domain d) (normalize e)) (db s));
      cbn [fst snd].
    + split; [ discriminate | ]. split; [ | split; [ reflexivity | ] ].
      * split; [ intros _; left; reflexivity | intros _; exists d, e; tauto ].
      * left. reflexivity.
    + split; [ discriminate | ]. split; [ | split; [ reflexivity | ] ].
      * split; [ intros _; right; reflexivity | intros _; exists d, e; tauto ].
      * right. left. reflexivity.
  - rewrite Hraise. cbn [fst snd]. split; [ reflexivity | ].
    split; [ | split; [ reflexivity | ] ].
    + split; [ intros H; contradiction | intros [H | H]; discriminate H ].
    + right. right. exists err. reflexivity.
Qed.

Lemma get_text_field (items : list (string * pyval)) (k x : string) :
  Py.get (PDict items) k (PStr EmptyString) = Ret (PStr x) <->
  text_field k items = Some x.
Proof.
  unfold text_field. simpl.
  destruct (Py.dict_lookup k items) as [[ | b | n | f | y | l | kv] | ];
    split; intros H; try discriminate H; injection H as <-; reflexivity.
Qed.

(** C10, as amended. /notify checks the types its code needs and nothing
    else. When [request.json] gives an object whose domain and email are
    each absent or a string, the request is accepted: the reply is "already
    registered" with the state unchanged, or "registered" with one row
    appended, and the table then holds an active row for the normalized
    pair; its domain is ".com" when the domain is absent, empty or white
    space, its email is the empty string when the email is absent, empty
    or white space. In every other case, [request.json] raising, a body
    that is no object, a domain or an email that is present and is no
    string, the route raises and the state is as it was: nothing is
    registered. *)
Theorem notify_accepts_empty_fields (request_json : outcome pyval) (s : state) :
  let run := route request_json s in
  (forall items d e,
      request_json = Ret (PDict items) ->
      text_field "domain" items = Some d ->
      text_field "email" items = Some e ->
      exists row,
        (run = (Ret already, s) \/
         fst run = Ret created /\ db (snd run) = (db s ++ [row])%list) /\
        In row (db (snd run)) /\
        domain row = normalize_domain d /\
        email row = normalize e /\
        notified row = false /\
        (normalize d = EmptyString -> domain row = ".com") /\
        (normalize e = EmptyString -> email row = EmptyString)) /\
  ((forall items,
       request_json = Ret (PDict items) ->
       text_field "domain" items = None \/ text_field "email" items = None) ->
   exists err, run = (Raise err, s)).
Proof.
  drop_unused.
  intros run. subst run. split.
  - intros items d e -> Hd He.
    change (route (Ret (PDict items)) s) with (register (PDict items) s).
    apply get_text_field in Hd. apply get_text_field in He.
    destruct (@notify_row World time_time (PDict items) s d e Hd He)
      as [row [HIn [Hdom [Hmail [Hflag Hrun]]]]].
    exists row.
    refine (conj _ (conj HIn (conj Hdom (conj Hmail (conj Hflag (conj _ _)))))).
    + destruct Hrun as [Hrun | [Hrun Hdb]].
      * left. exact Hrun.
      * right. split; [ rewrite Hrun; reflexivity | exact Hdb ].
    + intros Hempty. rewrite Hdom. unfold normalize_domain. rewrite Hempty.
      reflexivity.
    + intros Hempty. rewrite Hmail. exact Hempty.
  - intros Hbad. destruct request_json as [data | err].
    + change (route (Ret data) s) with (register data s).
      destruct (notify_early data s) as [[d [e [Hd He]]] | [Hraise _]];
        [ | exact Hraise ].
      exfalso. destruct data as [ | b | n | f | x | l | items];
        try discriminate Hd.
      apply get_text_field in Hd. apply get_text_field in He.
      destruct (Hbad items eq_refl) as [H | H]; congruence.
    + exists err. reflexivity.
Qed.

Lemma find_In_some (A : Type) (p : A -> bool) (t : list A) (r : A) :
  In r t -> p r = true -> find p t <> None.
Proof.
  induction t as [ | x t IH]; simpl; intros HIn Hp; [ contradiction | ].
  destruct (p x) eqn:Hx; [ discriminate | ].
  destruct HIn as [-> | HIn]; [ congruence | apply IH; assumption ].
Qed.

(** X20. Duplicates are recognized on the normalized pair: after a
    /notify for a domain and an email, a /notify whose domain and email
    normalize to the same pair (another case of the letters, white space
    around them, ".com" written out or left out for a name without dot)
    answers "already registered" and changes nothing. *)
Theorem notify_deduplicates_normalized_pairs
        (s : state) (data1 data2 : pyval) (d1 e1 d2 e2 : string) :
  Py.get data1 "domain" (PStr EmptyString) = Ret (PStr d1) ->
  Py.get data1 "email" (PStr EmptyString) = Ret (PStr e1) ->
  Py.get data2 "domain" (PStr EmptyString) = Ret (PStr d2) ->
  Py.get data2 "email" (PStr EmptyString) = Ret (PStr e2) ->
  normalize_domain d1 = normalize_domain d2 ->
  normalize e1 = normalize e2 ->
  let s1 := snd (register data1 s) in
  register data2 s1 = (Ret already, s1).
Proof.
  drop_unused.
  intros Hd1 He1 Hd2 He2 Hd He s1.
  destruct (@notify_row World time_time data1 s d1 e1 Hd1 He1)
    as [row [HIn [Hdom [Hmail [Hflag _]]]]].
  fold s1 in HIn.
  rewrite (@notify_run World time_time data2 s1 d2 e2 Hd2 He2).
  assert (Hfound : find (is_active_for (normalize_domain d2) (normalize e2)) (db s1)
                   <> None).
  { apply (@find_In_some _ _ _ row HIn).
    apply is_active_for_pair. rewrite <- Hd, <- He. tauto. }
  destruct (find (is_active_for (normalize_domain d2) (normalize e2)) (db s1));
    [ reflexivity | contradiction ].
Qed.

(* --------------------------------------------------------------------- *)
(** *** The rows through requests and cycles *)

Lemma flag_raised_refl (t : list Notification) : Forall2 flag_raised t t.
Proof. induction t; constructor; [ left; reflexivity | assumption ]. Qed.

Lemma flag_raised_mark (i : Z) (t : list Notification) :
  Forall2 flag_raised t (mark i t).
Proof.
  unfold mark. induction t as [ | r t IH]; simpl; constructor; [ | exact IH ].
  destruct (id r =? i); [ | left; reflexivity ].
  destruct (notified r) eqn:Hn.
  - left. apply set_notified_fixed. exact Hn.
  - right. split; [ exact Hn | reflexivity ].
Qed.

Lemma flag_raised_trans (t1 t2 t3 : list Notification) :
  Forall2 flag_raised t1 t2 -> Forall2 flag_raised t2 t3 -> Forall2 flag_raised t1 t3.
Proof.
  intros H12. revert t3. induction H12 as [ | a b t1 t2 Hab _ IH]; intros t3 H23.
  - inversion H23; subst. constructor.
  - inversion H23 as [ | ? c ? t3' Hbc H23']; subst. constructor; [ | apply IH; exact H23' ].
    destruct Hab as [-> | [Ha ->]]; [ exact Hbc | ].
    destruct Hbc as [-> | [Hb _]]; [ right; split; [ exact Ha | reflexivity ] | ].
    simpl in Hb. discriminate Hb.
Qed.

Lemma flag_raised_after_notes (l : list Notification) (s : state) :
  Forall2 flag_raised (db s) (db (run_notes l s)).
Proof.
  revert s. induction l as [ | note l IH]; intros s.
  - apply flag_raised_refl.
  - change (run_notes (note :: l) s) with (run_notes l (run_note note s)).
    apply (flag_raised_trans (t2 := db (run_note note s))); [ | apply IH ].
    rewrite db_after_note. destruct (delivered_in note s).
    + apply flag_raised_mark.
    + apply flag_raised_refl.
Qed.

(** One request or one cycle keeps every row, with at most its flag
    raised, and adds rows at the end only. *)
Lemma step_keeps_rows (o : op) (s : state) :
  exists kept added,
    db (step o s) = (kept ++ added)%list /\ Forall2 flag_raised (db s) kept.
Proof.
  destruct o as [data | data | ]; cbn [run_op].
  - exists (db s), []. rewrite check_domain_table, app_nil_r.
    split; [ reflexivity | apply flag_raised_refl ].
  - destruct (@notify_table World time_time data s) as [Hsame | [d [e [_ Hnew]]]].
    + exists (db s), []. rewrite Hsame, app_nil_r.
      split; [ reflexivity | apply flag_raised_refl ].
    + exists (db s), [new_row time_time d e s].
      split; [ exact Hnew | apply flag_raised_refl ].
  - exists (db (snd (poll s))), []. rewrite app_nil_r.
    split; [ reflexivity | ]. rewrite poll_run. apply flag_raised_after_notes.
Qed.

(** X16. No row is ever deleted or rewritten: through any sequence of
    requests and cycles, the table keeps its rows in their places, each
    with its key, domain, email and creation time, and with its flag as
    it was or raised from false to true; what is new stands after them. *)
Theorem rows_are_kept (ops : list op) (s : state) :
  exists kept added,
    db (run ops s) = (kept ++ added)%list /\
    Forall2 flag_raised (db s) kept.
Proof.
  revert s. induction ops as [ | o ops IH]; intros s.
  - exists (db s), []. simpl. rewrite app_nil_r.
    split; [ reflexivity | apply flag_raised_refl ].
  - change (run (o :: ops) s) with (run ops (step o s)).
    destruct (step_keeps_rows o s) as [kept1 [added1 [Hdb1 Hkept1]]].
    destruct (IH (step o s)) as [kept2 [added2 [Hdb2 Hkept2]]].
    rewrite Hdb1 in Hkept2. apply Forall2_app_inv_l in Hkept2.
    destruct Hkept2 as [k1 [k2 [Hk1 [Hk2 ->]]]].
    exists k1, (k2 ++ added2)%list. split.
    + rewrite Hdb2, <- app_assoc. reflexivity.
    + apply (flag_raised_trans Hkept1 Hk1).
Qed.

(* --------------------------------------------------------------------- *)
(** *** Sends and flags *)

Lemma notify_keeps_trace (data : pyval) (s : state) :
  trace (snd (register data s)) = trace s.
Proof.
  drop_unused.
  destruct (notify_early data s) as [[d [e [Hd He]]] | [[err Hraise] _]].
  - rewrite (@notify_run World time_time data s d e Hd He).
    destruct (find (is_active_for (normalize_domain d) (normalize e)) (db s));
      reflexivity.
  - rewrite Hraise. reflexivity.
Qed.

Lemma trace_looked (d : string) (s : state) :
  trace (looked d s) = (trace s ++ [Lookup d (fst (requests_get d (world s)))])%list.
Proof. reflexivity. Qed.

Lemma sends_returned_one (ev : event) :
  sends_returned [ev] = if send_returned ev then 1%nat else 0%nat.
Proof. unfold sends_returned. simpl. destruct (send_returned ev); reflexivity. Qed.

Lemma sends_after_note (note : Notification) (s : state) :
  sends_returned (trace (run_note note s)) =
  (sends_returned (trace s) + if delivered_in note s then 1 else 0)%nat.
Proof.
  unfold after_note, delivered, after_mail.
  destruct (whois_answer (fst (requests_get (domain note) (world s))))
    as [[ | ] | e].
  - cbn [world after_lookup record_event set_world].
    destruct (fst (smtp_session (email note) (mail_subject (domain note))
                                (mail_body (domain note))
                                (snd (requests_get (domain note) (world s)))))
      as [u | e]; cbn [trace record_event set_db set_world];
      rewrite trace_looked, !sends_returned_app, !sends_returned_one;
      cbn [send_returned]; lia.
  - rewrite trace_looked, sends_returned_app, sends_returned_one. cbn [send_returned]. lia.
  - cbn [trace record_event].
    rewrite trace_looked, !sends_returned_app, !sends_returned_one. cbn [send_returned]. lia.
Qed.

Lemma mark_absent (i : Z) (t : list Notification) :
  ~ In i (map id t) -> mark i t = t.
Proof.
  unfold mark. induction t as [ | r t IH]; simpl; intros Hnotin; [ reflexivity | ].
  destruct (id r =? i) eqn:Hr.
  - apply Z.eqb_eq in Hr. exfalso. apply Hnotin. left. exact Hr.
  - rewrite IH by tauto. reflexivity.
Qed.

Lemma notified_count_mark (i : Z) (t : list Notification) (r : Notification) :
  unique_ids t -> In r t -> id r = i -> notified r = false ->
  notified_count (mark i t) = S (notified_count t).
Proof.
  unfold unique_ids, notified_count.
  induction t as [ | x t IH]; simpl; intros Hnd HIn Hid Hflag; [ contradiction | ].
  inversion Hnd as [ | ? ? Hnotin Hnd']; subst.
  destruct HIn as [-> | HIn].
  - rewrite Z.eqb_refl. rewrite (mark_absent _ _ Hnotin).
    simpl. rewrite Hflag. reflexivity.
  - assert (Hne : id x <> id r).
    { intros Heq. apply Hnotin. rewrite Heq. apply in_map. exact HIn. }
    apply Z.eqb_neq in Hne. rewrite Hne.
    fold (mark (id r) t). specialize (IH Hnd' HIn eq_refl Hflag).
    destruct (notified x); simpl; rewrite IH; reflexivity.
Qed.

Lemma In_mark_other (i : Z) (t : list Notification) (r : Notification) :
  In r t -> id r <> i -> In r (mark i t).
Proof.
  intros HIn Hne. unfold mark. apply in_map_iff. exists r. split; [ | exact HIn ].
  apply Z.eqb_neq in Hne. rewrite Hne. reflexivity.
Qed.

Lemma account_after_notes (l : list Notification) (s : state) :
  unique_ids (db s) ->
  NoDup (map id l) ->
  (forall n, In n l -> In n (db s) /\ notified n = false) ->
  (sends_returned (trace (run_notes l s)) + notified_count (db s) =
   sends_returned (trace s) + notified_count (db (run_notes l s)))%nat.
Proof.
  revert s. induction l as [ | note l IH]; intros s Hids Hnd Hpending.
  - reflexivity.
  - change (run_notes (note :: l) s) with (run_notes l (run_note note s)).
    inversion Hnd as [ | ? ? Hnotin Hnd']; subst.
    destruct (Hpending note (or_introl eq_refl)) as [HIn Hflag].
    assert (Hstep : notified_count (db (run_note note s)) =
                    (notified_count (db s) + if delivered_in note s then 1 else 0)%nat).
    { rewrite db_after_note. destruct (delivered_in note s); [ | lia ].
      rewrite (@notified_count_mark (id note) (db s) note Hids HIn eq_refl Hflag). lia. }
    assert (Hids' : unique_ids (db (run_note note s))).
    { unfold unique_ids. rewrite ids_after_note. exact Hids. }
    assert (Hpending' : forall n, In n l ->
                                  In n (db (run_note note s)) /\ notified n = false).
    { intros n Hn. destruct (Hpending n (or_intror Hn)) as [HInn Hfn].
      split; [ | exact Hfn ]. rewrite db_after_note.
      destruct (delivered_in note s); [ | exact HInn ].
      apply In_mark_other; [ exact HInn | ].
      intros Heq. apply Hnotin. rewrite <- Heq. apply in_map. exact Hn. }
    specialize (IH (run_note note s) Hids' Hnd' Hpending').
    rewrite sends_after_note in IH. lia.
Qed.

Lemma notified_count_app (t u : list Notification) :
  notified_count (t ++ u) = (notified_count t + notified_count u)%nat.
Proof. unfold notified_count. rewrite filter_app. apply length_app. Qed.

(** One request or one cycle keeps the keys distinct and the account of
    mails and flags. *)
Lemma step_account (o : op) (s : state) :
  unique_ids (db s) ->
  unique_ids (db (step o s)) /\
  (sends_returned (trace (step o s)) + notified_count (db s) =
   sends_returned (trace s) + notified_count (db (step o s)))%nat.
Proof.
  intros Hids. destruct o as [data | data | ]; cbn [run_op].
  - rewrite check_domain_table. split; [ exact Hids | ].
    destruct (check_domain_new_events data s) as [new [-> [_ Hmails]]].
    rewrite sends_returned_app, (lookups_no_mail _ Hmails). lia.
  - rewrite notify_keeps_trace.
    destruct (@notify_table World time_time data s) as [-> | [d [e [_ ->]]]].
    + split; [ exact Hids | lia ].
    + split; [ apply unique_ids_insert; [ exact Hids | reflexivity ] | ].
      rewrite notified_count_app. unfold notified_count at 3. simpl. lia.
  - rewrite poll_run. cbn [snd]. split.
    + unfold unique_ids. rewrite ids_after_notes. exact Hids.
    + apply account_after_notes.
      * exact Hids.
      * apply filter_ids_NoDup. exact Hids.
      * intros n Hn. apply filter_In in Hn. destruct Hn as [HIn Hact].
        split; [ exact HIn | ]. unfold active in Hact.
        destruct (notified n); [ discriminate | reflexivity ].
Qed.

(** X17. Sends and flags are in step: from a table with distinct keys,
    through any sequence of requests and cycles, the number of calls of
    [send_email] that returned since then is the number of rows whose flag
    was raised since then: /check and /notify change neither number, and
    a cycle raises one flag for each [send_email] that returns in it.
    What is counted is the call returning, not the relay taking the
    message: a session that raises after [sendmail] has returned counts
    for nothing on either side. *)
Theorem sends_match_flags (ops : list op) (s : state) :
  unique_ids (db s) ->
  (sends_returned (trace (run ops s)) + notified_count (db s) =
   sends_returned (trace s) + notified_count (db (run ops s)))%nat.
Proof.
  revert s. induction ops as [ | o ops IH]; intros s Hids.
  - reflexivity.
  - change (run (o :: ops) s) with (run ops (step o s)).
    destruct (@step_account o s Hids) as [Hids' Hstep].
    specialize (IH (step o s) Hids'). lia.
Qed.

Lemma sends_grow (l : list Notification) (s : state) :
  (sends_returned (trace s) <= sends_returned (trace (run_notes l s)))%nat.
Proof.
  revert s. induction l as [ | note l IH]; intros s; [ apply Nat.le_refl | ].
  change (run_notes (note :: l) s) with (run_notes l (run_note note s)).
  specialize (IH (run_note note s)). rewrite sends_after_note in IH. lia.
Qed.

Lemma table_changes_with_a_mail (l : list Notification) (s : state) :
  sends_returned (trace (run_notes l s)) = sends_returned (trace s) ->
  db (run_notes l s) = db s.
Proof.
  revert s. induction l as [ | note l IH]; intros s Hsame; [ reflexivity | ].
  change (run_notes (note :: l) s) with (run_notes l (run_note note s)) in *.
  pose proof (sends_grow l (run_note note s)) as Hgrow.
  pose proof (sends_after_note note s) as Hnote.
  destruct (delivered_in note s) eqn:Hd; [ lia | ].
  rewrite IH by lia. rewrite db_after_note, Hd. reflexivity.
Qed.

(** X18. A cycle changes the table only when a call of [send_email]
    returned in it: when none did, lookups failing or answering
    "unavailable" and sends failing, the table after the cycle is the
    table before it, so the next cycle finds the same entries pending;
    and with no entry pending the cycle makes no call at all. *)
Theorem cycle_without_mail_changes_nothing (s : state) :
  (sends_returned (trace (snd (poll s))) = sends_returned (trace s) ->
   db (snd (poll s)) = db s) /\
  (filter active (db s) = [] -> poll s = (Ret tt, s)).
Proof.
  rewrite poll_run. cbn [snd]. split.
  - apply table_changes_with_a_mail.
  - intros ->. reflexivity.
Qed.

(* --------------------------------------------------------------------- *)
(** *** What the table holds *)

(** The row a registration appends carries the normalized pair. *)
Lemma notify_appends_normal (data : pyval) (s : state) :
  db (snd (register data s)) = db s \/
  exists d e,
    db (snd (register data s)) =
    (db s ++ [new_row time_time (normalize_domain d) (normalize e) s])%list.
Proof.
  drop_unused.
  destruct (notify_early data s) as [[d [e [Hd He]]] | [[err Hraise] _]].
  - rewrite (@notify_run World time_time data s d e Hd He).
    destruct (find (is_active_for (normalize_domain d) (normalize e)) (db s)).
    + left. reflexivity.
    + right. exists d, e. reflexivity.
  - rewrite Hraise. left. reflexivity.
Qed.

Lemma reachable_rows_normal (s : state) :
  reachable s -> Forall normal_row (db s).
Proof.
  induction 1 as [w tr | s data _ IH | s data _ IH | s _ IH].
  - constructor.
  - rewrite check_domain_table. exact IH.
  - destruct (notify_appends_normal data s) as [-> | [d [e ->]]]; [ exact IH | ].
    apply Forall_app. split; [ exact IH | ]. constructor; [ | constructor ].
    unfold normal_row. cbn [domain email new_row].
    split; [ apply NormalizeFacts.normalize_domain_fixed | ].
    split; [ apply NormalizeFacts.normalize_fixed
           | apply NormalizeFacts.normalize_domain_has_dot ].
  - rewrite poll_run. cbn [snd]. apply Forall_forall. intros x HIn.
    apply rows_after_notes in HIn. destruct HIn as [x0 [HIn0 Hx]].
    rewrite Forall_forall in IH. specialize (IH x0 HIn0).
    destruct Hx as [-> | ->]; [ exact IH | ].
    destruct x0; exact IH.
Qed.

(** X19. The table holds normalized pairs only: in every state the
    service reaches from an empty table, each row's domain and email are
    left as they are by the handlers' normalization (strip, then lower,
    then ".com" for a domain without dot), the domain has a dot, and a
    /notify that sends a pending row's domain and email as they are
    stored answers "already registered" and changes nothing. *)
Theorem stored_rows_are_normalized (s : state) (r : Notification) :
  reachable s ->
  In r (db s) ->
  normal_row r /\
  (notified r = false ->
   register (notify_request (domain r) (email r)) s = (Ret already, s)).
Proof.
  intros Hreach HIn.
  pose proof (reachable_rows_normal Hreach) as Hall.
  rewrite Forall_forall in Hall. specialize (Hall r HIn).
  split; [ exact Hall | ]. intros Hflag.
  destruct Hall as [Hdom [Hmail _]].
  rewrite (@notify_run World time_time (notify_request (domain r) (email r)) s
                       (domain r) (email r) eq_refl eq_refl).
  rewrite Hdom, Hmail.
  assert (Hfound : find (is_active_for (domain r) (email r)) (db s) <> None).
  { apply (@find_In_some _ _ _ r HIn). apply is_active_for_pair. tauto. }
  destruct (find (is_active_for (domain r) (email r)) (db s));
    [ reflexivity | contradiction ].
Qed.

End MoreProperties.

(* ===================================================================== *)
(** ** The rest of the module at concrete inputs *)
(* ===================================================================== *)

(** The environment of [Demo] loads into the settings of [Demo]. *)
Example load_demo_environment :
  Config.load Demo.int_of_str Demo.environment = inr Demo.settings.
Proof. reflexivity. Qed.

(** A port that is no number stops the load before the key is looked at. *)
Example load_bad_port :
  Config.load Demo.int_of_str
              (fun key => if String.eqb key "SMTP_PORT" then Some "smtp" else None)
  = inl (Config.IntValueError "SMTP_PORT" "smtp").
Proof. reflexivity. Qed.

(** A session whose STARTTLS is refused: no login, no mail, and the exit
    of the block is still run. *)
Example session_without_starttls :
  send_email_calls Demo.refuses_starttls Demo.settings "a@b.com" "s" "b" 0%nat
  = (Raise (External "SMTPNotSupportedError"),
     [SMTP_connect (Some "smtp.example.com") 587; SMTP_starttls; SMTP_exit],
     3%nat).
Proof. reflexivity. Qed.

(** X8 at the row of a new registration, with a relay that refuses the
    exit. *)
Lemma refused_quit_witness :
  db (snd (process_note (Demo.endpoint Demo.everything_available)
                        (smtp_session_calls Demo.refuses_quit Demo.settings)
                        Demo.free_xyz_row Demo.registered))
  = db Demo.registered.
Proof.
  exact (proj1 (@refused_quit_leaves_row_pending
                  Demo.World Demo.refuses_quit Demo.settings
                  (Demo.endpoint Demo.everything_available)
                  Demo.free_xyz_row Demo.registered
                  (External "SMTPResponseException")
                  eq_refl eq_refl eq_refl eq_refl eq_refl eq_refl)).
Defined.

(** X10 at "Shop" and "shop.io". *)
Lemma generate_suggestions_label_witness :
  generate_suggestions "Shop.io" 2 = generate_suggestions "Shop" 2 /\
  generate_suggestions "shop" 2 = generate_suggestions "Shop" 2.
Proof.
  destruct (@SuggestionBounds.generate_suggestions_uses_the_label "Shop" "io" 2 eq_refl)
    as [Hdot [Hcase _]].
  split; [ exact Hdot | exact Hcase ].
Defined.

(** X11 at a request with the cap 2, when every domain is available. *)
Lemma check_domain_suggestions_witness :
  NoDup ["foo.com"; "foo.net"] /\
  subsequence ["foo.com"; "foo.net"] (generate_suggestions "foo" 2).
Proof.
  apply (@check_domain_suggestions_in_order
           Demo.World (Demo.endpoint Demo.everything_available) Demo.int_of_str
           Demo.asks_foo Demo.start "Foo" (PInt 2) 2 "foo.com" true
           ["foo.com"; "foo.net"] 200 eq_refl eq_refl eq_refl eq_refl).
Defined.

(** X12 at the same request. *)
Lemma check_domain_looks_up_twice_witness :
  exists r1 r2 rest,
    trace (snd (check_domain (Demo.endpoint Demo.everything_available)
                             Demo.int_of_str Demo.asks_foo Demo.start))
    = Lookup "foo.com" r1 :: Lookup "foo.com" r2 :: rest.
Proof.
  apply (@check_domain_looks_up_twice
           Demo.World (Demo.endpoint Demo.everything_available) Demo.int_of_str
           Demo.asks_foo Demo.start "Foo" (PInt 2) 2
           eq_refl eq_refl eq_refl eq_refl ltac:(lia) eq_refl).
Defined.

(** X20 at two spellings of one registration. *)
Lemma notify_deduplicates_witness :
  notify Demo.clock Demo.wants_free_xyz_again Demo.registered
  = (Ret already, Demo.registered).
Proof.
  apply (@notify_deduplicates_normalized_pairs
           Demo.World Demo.clock Demo.start
           Demo.wants_free_xyz Demo.wants_free_xyz_again
           " Free.XYZ " "A@b.com" "FREE.xyz  " "  a@B.COM"
           eq_refl eq_refl eq_refl eq_refl eq_refl eq_refl).
Defined.

(** X17 at a registration, a cycle that mails one of three entries, and a
    check. *)
Lemma sends_match_flags_witness :
  let ops := [PostNotify Demo.wants_example_xyz; Tick; PostCheck Demo.asks_foo] in
  let s' := run_ops (Demo.endpoint Demo.only_free_xyz) (Demo.relay Demo.anyone)
                    Demo.clock Demo.int_of_str ops Demo.three_rows in
  (sends_returned (trace s') + notified_count (db Demo.three_rows) =
   sends_returned (trace Demo.three_rows) + notified_count (db s'))%nat.
Proof.
  apply (@sends_match_flags
           Demo.World (Demo.endpoint Demo.only_free_xyz) (Demo.relay Demo.anyone)
           Demo.clock Demo.int_of_str
           [PostNotify Demo.wants_example_xyz; Tick; PostCheck Demo.asks_foo]
           Demo.three_rows).
  unfold unique_ids. simpl.
  repeat (constructor; [ simpl; intuition discriminate | ]). constructor.
Defined.

(** X19 at the row of a new registration. *)
Lemma stored_rows_witness :
  normal_row Demo.free_xyz_row /\
  notify Demo.clock (notify_request "free.xyz" "a@b.com") Demo.registered
  = (Ret already, Demo.registered).
Proof.
  destruct (@stored_rows_are_normalized
              Demo.World (Demo.endpoint Demo.nothing_available) (Demo.relay Demo.anyone)
              Demo.clock Demo.int_of_str Demo.registered Demo.free_xyz_row)
    as [Hnormal Hagain].
  - apply reach_notify. apply reach_start.
  - left. reflexivity.
  - split; [ exact Hnormal | exact (Hagain eq_refl) ].
Defined.

(** C10, as stated, fails: a request object without domain whose email is
    [null] is not accepted, the handler raises on the email and registers
    nothing; so it does for a body that is no object. *)
Lemma notify_refuses_null_email :
  text_field "domain" [("email", PNone)] = Some EmptyString /\
  notify_route Demo.clock (Ret (PDict [("email", PNone)])) Demo.start
  = (Raise (AttributeError "strip"), Demo.start) /\
  notify_route Demo.clock (Ret (PList [])) Demo.start
  = (Raise (AttributeError "get"), Demo.start).
Proof. repeat split. Qed.

(** C10 at the empty request object in a new database. *)
Lemma notify_accepts_empty_fields_witness :
  exists row,
    notify_route Demo.clock (Ret (PDict [])) Demo.start
    = (Ret created, {| db := [row]; world := 1%nat; trace := [] |}) /\
    domain row = ".com" /\ email row = EmptyString /\ notified row = false.
Proof.
  destruct (proj1 (@notify_accepts_empty_fields
                     Demo.World Demo.clock (Ret (PDict [])) Demo.start)
                  [] EmptyString EmptyString eq_refl eq_refl eq_refl)
    as [row [_ [HIn _]]].
  exists row. simpl in HIn. destruct HIn as [<- | []].
  repeat split; reflexivity.
Defined.
